(** * Nutrient calculator: extraction, quantity normalisation and aggregation

    A shallow embedding of [src/js/scripts.js].  ECMAScript numbers are the
    kernel's binary64 floats, so every arithmetic step below rounds exactly
    as the script does; strings are sequences of code units; the meal object
    and the document are finite maps with string keys; the nutrition provider
    is an oracle threaded through the asynchronous functions. *)

From Stdlib Require Import ZArith Lia List String Ascii Bool.
From Stdlib Require Import Floats.
From stdpp Require Import base option list gmap strings pretty.

Local Open Scope string_scope.
Local Open Scope Z_scope.

(** * ECMAScript strings

    A string is a sequence of code units; the model covers the code units
    U+0000 to U+00FF, one [ascii] each. *)
Module JsString.

Definition code (c : ascii) : Z := Z.of_N (N_of_ascii c).

(** WhiteSpace and LineTerminator code units below U+0100: TAB, LF, VT, FF,
    CR, SP and NBSP.  [String.prototype.trim] and the pattern class [\s]
    use this same set. *)
Definition isWhiteSpace (c : ascii) : bool :=
  ((9 <=? code c) && (code c <=? 13)) || (code c =? 32) || (code c =? 160).

(** [\d] *)
Definition isDigit (c : ascii) : bool := (48 <=? code c) && (code c <=? 57).

(** [[a-zA-Z]] *)
Definition isAlpha (c : ascii) : bool :=
  ((65 <=? code c) && (code c <=? 90)) || ((97 <=? code c) && (code c <=? 122)).

(** Lower-case mapping of one code unit: A-Z, and the Latin-1 capitals
    U+00C0..U+00DE except the multiplication sign U+00D7. *)
Definition toLowerChar (c : ascii) : ascii :=
  if ((65 <=? code c) && (code c <=? 90))
     || ((192 <=? code c) && (code c <=? 222) && negb (code c =? 215))
  then ascii_of_N (N_of_ascii c + 32) else c.

Fixpoint toLowerCase (s : string) : string :=
  match s with
  | EmptyString => EmptyString
  | String c s' => String (toLowerChar c) (toLowerCase s')
  end.

Definition isEmpty (s : string) : bool :=
  match s with EmptyString => true | String _ _ => false end.

Fixpoint trimStart (s : string) : string :=
  match s with
  | EmptyString => EmptyString
  | String c s' => if isWhiteSpace c then trimStart s' else s
  end.

Fixpoint trimEnd (s : string) : string :=
  match s with
  | EmptyString => EmptyString
  | String c s' =>
      let t := trimEnd s' in
      if isWhiteSpace c && isEmpty t then EmptyString else String c t
  end.

Definition trim (s : string) : string := trimEnd (trimStart s).

(** The longest prefix whose code units satisfy [p], and what follows it. *)
Fixpoint span (p : ascii -> bool) (s : string) : string * string :=
  match s with
  | EmptyString => (EmptyString, EmptyString)
  | String c s' =>
      if p c then let '(a, b) := span p s' in (String c a, b)
      else (EmptyString, s)
  end.

(** [s.includes(c)] for a one-unit needle. *)
Fixpoint includes (c : ascii) (s : string) : bool :=
  match s with
  | EmptyString => false
  | String d s' => Ascii.eqb c d || includes c s'
  end.

(** [s.split(c)] for a one-unit separator, as the first part and the parts
    after it: one more part than there are separators. *)
Fixpoint splitParts (c : ascii) (s : string) : string * list string :=
  match s with
  | EmptyString => (EmptyString, [])
  | String d s' =>
      let '(p, ps) := splitParts c s' in
      if Ascii.eqb c d then (EmptyString, p :: ps) else (String d p, ps)
  end.

Definition split (c : ascii) (s : string) : list string :=
  let '(p, ps) := splitParts c s in p :: ps.

Fixpoint startsWith (p s : string) : bool :=
  match p, s with
  | EmptyString, _ => true
  | String a p', String b s' => Ascii.eqb a b && startsWith p' s'
  | String _ _, EmptyString => false
  end.

Fixpoint repeat0 (n : nat) : string :=
  match n with O => EmptyString | S k => String "0" (repeat0 k) end.

Fixpoint takeStr (n : nat) (s : string) : string :=
  match n, s with
  | S k, String c s' => String c (takeStr k s')
  | _, _ => EmptyString
  end.

Fixpoint dropStr (n : nat) (s : string) : string :=
  match n, s with
  | S k, String _ s' => dropStr k s'
  | _, _ => s
  end.

End JsString.

(** * ECMAScript numbers

    A Number is an IEEE 754 binary64 value: [float], with the kernel's
    [+], [*] and [/] (round to nearest, ties to even). *)
Module JsNumber.
Import JsString.

(** The binary64 value nearest to the rational [n / d] ([0 < n], [0 < d]),
    ties to even, with sign [neg]: the division step of IEEE 754 on the two
    integers, then the format's rounding. *)
Definition of_ratio (neg : bool) (n d : Z) : float :=
  let '(mz, ez, lz) := SFdiv_core_binary prec emax n 0 d 0 in
  SF2Prim (binary_round_aux prec emax neg mz ez lz).

(** The Number for the decimal [m * 10^e], [0 <= m]. *)
Definition of_decimal (neg : bool) (m e : Z) : float :=
  if m =? 0 then (if neg then neg_zero else zero)
  else if 0 <=? e then of_ratio neg (m * 10 ^ e) 1
  else of_ratio neg m (10 ^ (- e)).

(** Value of a run of decimal digits, most significant first. *)
Fixpoint digitsValue (acc : Z) (s : string) : Z :=
  match s with
  | EmptyString => acc
  | String c s' => digitsValue (10 * acc + (code c - 48)) s'
  end.

(** The longest prefix of [s] that is an unsigned StrDecimalLiteral other
    than [Infinity], as mantissa and decimal exponent:
    digits, then optionally a dot and digits, or a dot and at least one
    digit; then optionally an exponent part, taken only when it has a digit.
    [None] when no prefix is a literal. *)
Definition scanDecimal (s : string) : option (Z * Z) :=
  let '(ip, r1) := span isDigit s in
  let '(fp, r2) :=
    match r1 with
    | String "." r => span isDigit r
    | _ => (EmptyString, r1)
    end in
  if isEmpty ip && isEmpty fp then None
  else
    let ex :=
      match r2 with
      | String c r =>
          if Ascii.eqb c "e" || Ascii.eqb c "E" then
            match r with
            | String "-" r' =>
                let ds := fst (span isDigit r') in
                if isEmpty ds then 0 else - digitsValue 0 ds
            | String "+" r' => digitsValue 0 (fst (span isDigit r'))
            | _ => digitsValue 0 (fst (span isDigit r))
            end
          else 0
      | EmptyString => 0
      end in
    Some (digitsValue 0 (ip ++ fp)%string, ex - Z.of_nat (String.length fp)).

(** The global [parseFloat]: leading white space is dropped, the longest
    prefix that is a StrDecimalLiteral is read, anything after it is
    ignored; [NaN] when there is no such prefix. *)
Definition parseFloat (input : string) : float :=
  let s := trimStart input in
  let '(neg, body) :=
    match s with
    | String "-" r => (true, r)
    | String "+" r => (false, r)
    | _ => (false, s)
    end in
  if startsWith "Infinity" body then (if neg then neg_infinity else infinity)
  else
    match scanDecimal body with
    | Some (m, e) => of_decimal neg m e
    | None => nan
    end.

(** ToBoolean on a Number: [NaN], [+0] and [-0] are falsy. *)
Definition truthy (x : float) : bool := negb (is_nan x || is_zero x).

(** [x || y] on Numbers. *)
Definition or_else (x y : float) : float := if truthy x then x else y.

(** The global [isNaN] on a Number. *)
Definition isNaN (x : float) : bool := is_nan x.

(** Decimal digits of a non-negative integer. *)
Definition digitsOf (n : Z) : string := pretty (Z.to_N n).

(** The integer [n] for which [n / 10^f - m * 2^e] is closest to zero, the
    larger one when two are equally close. *)
Definition nearestScaled (m : positive) (e : Z) (f : nat) : Z :=
  let N := Zpos m * 10 ^ Z.of_nat f in
  if 0 <=? e then N * 2 ^ e
  else (2 * N + 2 ^ (- e)) / 2 ^ (1 - e).

(** Steps 9 to 11 of [Number.prototype.toFixed] on the integer [n]. *)
Definition fixedDigits (n : Z) (f : nat) : string :=
  let m := if n =? 0 then "0"%string else digitsOf n in
  match f with
  | O => m
  | S _ =>
      let k := String.length m in
      let m' := if (k <=? f)%nat then (repeat0 (f + 1 - k) ++ m)%string else m in
      let k' := String.length m' in
      (takeStr (k' - f) m' ++ "." ++ dropStr (k' - f) m')%string
  end.

(** Number::toString for a finite [x >= 10^21], an integer [X = m * 2^e]:
    the shortest digit string [s] of [k] digits with [s * 10^(n-k)] reading
    back as [x], the closest to [X] when several have that length, in
    exponential notation. *)
Fixpoint shortestDigits (fuel : nat) (k : nat) (x : float) (X : Z) (n0 : nat)
  : Z * nat * nat :=
  match fuel with
  | O => (X, n0, n0)
  | S fuel' =>
      let scale := 10 ^ Z.of_nat (n0 - k) in
      let lo := X / scale in
      let hi := lo + 1 in
      let okLo := PrimFloat.eqb (of_ratio false (lo * scale) 1) x in
      let okHi := PrimFloat.eqb (of_ratio false (hi * scale) 1) x in
      let dLo := X - lo * scale in
      let dHi := hi * scale - X in
      let pickLo := okLo && (negb okHi || (dLo <? dHi) || ((dLo =? dHi) && Z.even lo)) in
      if pickLo then (lo, k, n0)
      else if okHi then
        (if hi =? 10 ^ Z.of_nat k then (10 ^ Z.of_nat (k - 1), k, S n0) else (hi, k, n0))
      else shortestDigits fuel' (S k) x X n0
  end.

Fixpoint stripZeros (s : string) : string :=
  match s with
  | EmptyString => EmptyString
  | String c s' =>
      let t := stripZeros s' in
      if Ascii.eqb c "0" && isEmpty t then EmptyString else String c t
  end.

Definition toStringLarge (x : float) (m : positive) (e : Z) : string :=
  let X := Zpos m * 2 ^ e in
  let n0 := String.length (digitsOf X) in
  let '(s, _, n) := shortestDigits 17 1 x X n0 in
  let ds := stripZeros (digitsOf s) in
  let ex := digitsOf (Z.of_nat n - 1) in
  match ds with
  | String d EmptyString => (String d "e+" ++ ex)%string
  | String d rest => (String d "." ++ rest ++ "e+" ++ ex)%string
  | EmptyString => EmptyString
  end.

(** [x.toFixed(f)], [f <= 100]. *)
Definition toFixed (x : float) (f : nat) : string :=
  match Prim2SF x with
  | S754_nan => "NaN"
  | S754_infinity s => if s then "-Infinity" else "Infinity"
  | S754_zero _ => fixedDigits 0 f
  | S754_finite s m e =>
      let sign := if s then "-"%string else EmptyString in
      if PrimFloat.leb 1e21 (abs x) then (sign ++ toStringLarge (abs x) m e)%string
      else (sign ++ fixedDigits (nearestScaled m e f) f)%string
  end.

End JsNumber.

Import JsString JsNumber.
Local Open Scope float_scope.

(** * Data model *)

(** One entry of [foodItem.foodNutrients]. *)
Record Nutrient := { nutrientName : string; value : float }.

(** A food record of the nutrition provider. *)
Record FoodItem := { foodNutrients : list Nutrient }.

(** The object built by [extractNutrients], and the [totals] accumulator of
    [estimateMealNutrition], which has the same four properties. *)
Record NutrientProfile :=
  { calories : float; protein : float; carbs : float; fat : float }.

Abbreviation MealTotals := NutrientProfile.

(** What a property read on a meal record yields: the meals come from JSON,
    where an ingredient or measure is a string or [null]; a key that is not
    there reads as [undefined]. *)
Inductive Value := Undefined | Null | Str (s : string).

(** A meal record, by property name. *)
Abbreviation Meal := (gmap string Value).

(** [meal[key]] *)
Definition prop (meal : Meal) (key : string) : Value :=
  default Undefined (meal !! key).

(** What awaiting [fetch(url)] and then [res.json()] gives: either of the
    two throws, or the body is an object whose [foods] property is missing
    ([None]) or an array of food records. *)
Inductive Response := Throws | Body (foods : option (list FoodItem)).

(** What the script leaves behind besides its results. *)
Inductive Event :=
  | Requested (query : string)      (* a search sent to the nutrition provider *)
  | Warned (ingredient : string)    (* console.warn in the aggregation loop *)
  | Errored                         (* console.error in calculate *)
  | Alerted (message : string).     (* alert *)

(** The text content of the page's elements, by element id. *)
Abbreviation Document := (gmap string string).

(** * The unit table *)

(** The own properties of the object literal [measureToGrams]. *)
Definition measureToGrams : gmap string float :=
  list_to_map
    [ ("cup", 240); ("tablespoon", 15); ("tbsp", 15); ("teaspoon", 5); ("tsp", 5);
      ("slice", 30); ("slices", 30); ("piece", 50); ("pieces", 50); ("oz", 28);
      ("ounces", 28); ("pound", 454); ("lb", 454); ("g", 1); ("gram", 1); ("grams", 1) ].

(** An object literal inherits from [Object.prototype]; these are the
    property names found there.  Each holds a function, and [__proto__]
    reads as the prototype object itself. *)
Definition Object_prototype : list string :=
  [ "constructor"; "hasOwnProperty"; "isPrototypeOf"; "propertyIsEnumerable";
    "toLocaleString"; "toString"; "valueOf"; "__defineGetter__";
    "__defineSetter__"; "__lookupGetter__"; "__lookupSetter__"; "__proto__" ].

(** What [measureToGrams[unit]] can evaluate to. *)
Inductive TableEntry :=
  | Grams (x : float)     (* an own property of the table *)
  | Inherited             (* a function or object found on the prototype *)
  | Missing.              (* undefined *)

(** [measureToGrams[unit]]: own properties first, then the prototype. *)
Definition tableLookup (unit : string) : TableEntry :=
  match measureToGrams !! unit with
  | Some x => Grams x
  | None => if bool_decide (unit ∈ Object_prototype) then Inherited else Missing
  end.

(** [measureToGrams[unit] || 100], already converted by ToNumber as the
    multiplication that follows does: an object converts to [NaN]. *)
Definition gramsPerUnit (unit : string) : float :=
  match tableLookup unit with
  | Grams x => or_else x 100
  | Inherited => nan
  | Missing => 100
  end.

(** * Nutrient Extractor *)

Definition noNutrients : NutrientProfile :=
  {| calories := 0; protein := 0; carbs := 0; fat := 0 |}.

(** The body of the [forEach] callback: the [switch] on [n.nutrientName]. *)
Definition visitNutrient (nutrients : NutrientProfile) (n : Nutrient) : NutrientProfile :=
  if String.eqb n.(nutrientName) "Energy" then
    {| calories := n.(value); protein := nutrients.(protein);
       carbs := nutrients.(carbs); fat := nutrients.(fat) |}
  else if String.eqb n.(nutrientName) "Protein" then
    {| calories := nutrients.(calories); protein := n.(value);
       carbs := nutrients.(carbs); fat := nutrients.(fat) |}
  else if String.eqb n.(nutrientName) "Carbohydrate, by difference" then
    {| calories := nutrients.(calories); protein := nutrients.(protein);
       carbs := n.(value); fat := nutrients.(fat) |}
  else if String.eqb n.(nutrientName) "Total lipid (fat)" then
    {| calories := nutrients.(calories); protein := nutrients.(protein);
       carbs := nutrients.(carbs); fat := n.(value) |}
  else nutrients.

Definition extractNutrients (foodItem : FoodItem) : NutrientProfile :=
  fold_left visitNutrient foodItem.(foodNutrients) noNutrients.

(** * Quantity Normalizer *)

(** [[\d./]] *)
Definition isQuantityChar (c : ascii) : bool :=
  isDigit c || Ascii.eqb c "." || Ascii.eqb c "/".

(** [cleaned.match(/^([\d./]+)\s*([a-zA-Z]+)/)]: the two captures, or [None]
    for [null].  The three classes are pairwise disjoint, so the greedy
    match is the only one: backing off a run leaves a code unit that the
    next item of the pattern rejects. *)
Definition matchMeasure (cleaned : string) : option (string * string) :=
  let '(quantity, rest) := span isQuantityChar cleaned in
  if isEmpty quantity then None
  else
    let '(_, rest') := span isWhiteSpace rest in
    let '(unit, _) := span isAlpha rest' in
    if isEmpty unit then None else Some (quantity, unit).

(** The [if]/[else] on [quantity.includes("/")].  A part that is not there
    would read as [undefined], which [parseFloat] turns into [NaN] as it
    does the empty string; a quantity with a slash always has two parts. *)
Definition parseQuantity (quantity : string) : float :=
  if includes "/" quantity then
    let parts := split "/" quantity in
    parseFloat (default EmptyString (parts !! 0%nat))
    / parseFloat (default EmptyString (parts !! 1%nat))
  else parseFloat quantity.

Definition estimateGramsFromMeasure (measure : Value) : float :=
  match measure with
  | Undefined | Null => 100
  | Str measure =>
      if isEmpty measure then 100
      else
        let cleaned := toLowerCase (trim measure) in
        match matchMeasure cleaned with
        | None => 100
        | Some (quantity, unit) => parseQuantity quantity * gramsPerUnit unit
        end
  end.

(** * Direct lookup *)

(** [document.getElementById(id).textContent = text].  The elements written
    to exist: the four result spans are in [nutrient-calculator.html], a
    meal's spans are in the card that [fetchMealSuggestions] appends before
    it starts the aggregation. *)
Definition setText (id text : string) (doc : Document) : Document :=
  <[id := text]> doc.

Definition displayNutrients (nutrients : NutrientProfile) (quantity : float)
    (doc : Document) : Document :=
  let scale := quantity / 100 in
  let doc := setText "calories" (toFixed (nutrients.(calories) * scale) 1) doc in
  let doc := setText "protein" (toFixed (nutrients.(protein) * scale) 1) doc in
  let doc := setText "carbs" (toFixed (nutrients.(carbs) * scale) 1) doc in
  setText "fat" (toFixed (nutrients.(fat) * scale) 1) doc.

Definition resetResults (doc : Document) : Document :=
  let doc := setText "calories" "0" doc in
  let doc := setText "protein" "0" doc in
  let doc := setText "carbs" "0" doc in
  let doc := setText "fat" "0" doc in
  setText "suggestions" EmptyString doc.

Section Provider.

(** The nutrition provider, as the script sees it: the outcome of the
    search request number [i] of a run, sent for the text [query].  The
    direct lookup sends request 0; the aggregation loop sends request [i]
    for slot [i]. *)
Variable respond : nat -> string -> Response.

(** [fetchNutritionData]: [None] when the request throws or when the
    function itself throws "Food not found". *)
Definition fetchNutritionData (foodName : string) : option FoodItem :=
  match respond 0 foodName with
  | Throws => None
  | Body None => None
  | Body (Some []) => None
  | Body (Some (foodItem :: _)) => Some foodItem
  end.

(** [calculate], with the values of the two form fields as arguments.  The
    call to [fetchMealSuggestions] that ends the [try] block is not awaited
    and writes to the suggestions area only; it is left out. *)
Definition calculate (food quantityField : string) (doc : Document)
    : Document * list Event :=
  let doc := resetResults doc in
  let foodName := trim food in
  let quantity := parseFloat quantityField in
  if isEmpty foodName || isNaN quantity || (quantity <=? 0) then
    (doc, [Alerted "Enter valid food and quantity."])
  else
    match fetchNutritionData foodName with
    | Some foodItem =>
        (displayNutrients (extractNutrients foodItem) quantity doc,
         [Requested foodName])
    | None =>
        (doc, [Requested foodName; Errored; Alerted "Error fetching nutrition info!"])
    end.

(** * Aggregator *)

Definition maxNumIngredients : nat := 20.

(** [!ingredient || ingredient.trim() === ''] *)
Definition isBlank (ingredient : Value) : bool :=
  match ingredient with
  | Undefined | Null => true
  | Str s => isEmpty s || isEmpty (trim s)
  end.

(** The four [+=] statements. *)
Definition addScaled (totals : MealTotals) (nutrients : NutrientProfile)
    (scale : float) : MealTotals :=
  {| calories := totals.(calories) + or_else nutrients.(calories) 0 * scale;
     protein := totals.(protein) + or_else nutrients.(protein) 0 * scale;
     carbs := totals.(carbs) + or_else nutrients.(carbs) 0 * scale;
     fat := totals.(fat) + or_else nutrients.(fat) 0 * scale |}.

(** ToString of a property value, as the template literals and
    [encodeURIComponent] apply it. *)
Definition toText (v : Value) : string :=
  match v with Undefined => "undefined" | Null => "null" | Str s => s end.

(** One iteration of the [for] loop, on the accumulator and the events so
    far. *)
Definition ingredientStep (meal : Meal) (st : MealTotals * list Event) (i : nat)
    : MealTotals * list Event :=
  let '(totals, events) := st in
  let ingredient := prop meal ("strIngredient" +:+ pretty i) in
  let measure := prop meal ("strMeasure" +:+ pretty i) in
  if isBlank ingredient then st
  else
    let query := toText ingredient in
    match respond i query with
    | Throws => (totals, (events ++ [Requested query; Warned query])%list)
    | Body (Some (foodItem :: _)) =>
        let nutrients := extractNutrients foodItem in
        let grams := estimateGramsFromMeasure measure in
        let scale := grams / 100 in
        (addScaled totals nutrients scale, (events ++ [Requested query])%list)
    | Body _ => (totals, (events ++ [Requested query])%list)
    end.

(** The [for] loop over the slots 1 to 20. *)
Definition mealLoop (meal : Meal) : MealTotals * list Event :=
  fold_left (ingredientStep meal) (seq 1 maxNumIngredients) (noNutrients, []).

Definition estimateMealNutrition (meal : Meal) (doc : Document)
    : Document * list Event :=
  let '(totals, events) := mealLoop meal in
  let id := toText (prop meal "idMeal") in
  let doc := setText ("meal-calories-" +:+ id) (toFixed totals.(calories) 0 +:+ " kcal") doc in
  let doc := setText ("meal-protein-" +:+ id) (toFixed totals.(protein) 1) doc in
  let doc := setText ("meal-carbs-" +:+ id) (toFixed totals.(carbs) 1) doc in
  (setText ("meal-fat-" +:+ id) (toFixed totals.(fat) 1) doc, events).

End Provider.

(** * Specification-level definitions

    What the statements below compare the script with. *)

(** Names the extractor recognises. *)
Definition recognizedNames : list string :=
  [ "Energy"; "Protein"; "Carbohydrate, by difference"; "Total lipid (fat)" ].

(** The value of the last entry named [name], 0 when there is none. *)
Definition lastValue (name : string) (entries : list Nutrient) : float :=
  default 0 (value <$> last (filter (λ n, n.(nutrientName) = name) entries)).

(** A profile with every value multiplied by [k]. *)
Definition scaleProfile (k : float) (p : NutrientProfile) : NutrientProfile :=
  {| calories := p.(calories) * k; protein := p.(protein) * k;
     carbs := p.(carbs) * k; fat := p.(fat) * k |}.

(** A food record with every nutrient value multiplied by [k]. *)
Definition scaleNutrient (k : float) (n : Nutrient) : Nutrient :=
  {| nutrientName := n.(nutrientName); value := n.(value) * k |}.

Definition scaleItem (k : float) (foodItem : FoodItem) : FoodItem :=
  {| foodNutrients := map (scaleNutrient k) foodItem.(foodNutrients) |}.

(** Field-wise sum. *)
Definition addProfile (a b : NutrientProfile) : NutrientProfile :=
  {| calories := a.(calories) + b.(calories); protein := a.(protein) + b.(protein);
     carbs := a.(carbs) + b.(carbs); fat := a.(fat) + b.(fat) |}.

(** A number with a clear sign bit: [+0], a positive number or
    [+Infinity]. *)
Definition hasClearSign (x : float) : bool := negb (is_nan x) && negb (get_sign x).

(** A finite number with a clear sign bit: [+0] or a positive number. *)
Definition isAmount (x : float) : bool := is_finite x && negb (get_sign x).

(** Equal as numbers: identical, or both zero ([+0 === -0]). *)
Definition sameNumber (x y : float) : Prop :=
  x = y ∨ (is_zero x = true ∧ is_zero y = true).

Definition sameProfile (p q : NutrientProfile) : Prop :=
  sameNumber p.(calories) q.(calories) ∧ sameNumber p.(protein) q.(protein)
  ∧ sameNumber p.(carbs) q.(carbs) ∧ sameNumber p.(fat) q.(fat).

(** [x >= 0], and [x >= 0] with [x] finite. *)
Definition nonNegative (x : float) : bool := 0 <=? x.

Definition finiteNonNegative (x : float) : bool := is_finite x && (0 <=? x).

(** Every nutrient value of a record satisfies [P]. *)
Definition allValues (P : float -> bool) (foodItem : FoodItem) : bool :=
  forallb (λ n, P n.(value)) foodItem.(foodNutrients).

Definition profileNonNegative (p : NutrientProfile) : bool :=
  nonNegative p.(calories) && nonNegative p.(protein)
  && nonNegative p.(carbs) && nonNegative p.(fat).

(** Slot [i] of a meal. *)
Definition ingredientKey (i : nat) : string := "strIngredient" +:+ pretty i.
Definition measureKey (i : nat) : string := "strMeasure" +:+ pretty i.

(** The first record of a response, if the lookup succeeded. *)
Definition firstRecord (r : Response) : option FoodItem :=
  match r with
  | Body (Some (foodItem :: _)) => Some foodItem
  | _ => None
  end.

(** What slot [i] is to add to the totals: nothing when the slot is blank or
    its lookup fails, else the record's profile and the scale of the
    measure. *)
Definition slotContribution (respond : nat -> string -> Response) (meal : Meal)
    (i : nat) : option (NutrientProfile * float) :=
  if isBlank (prop meal (ingredientKey i)) then None
  else
    foodItem ← firstRecord (respond i (toText (prop meal (ingredientKey i))));
    Some (extractNutrients foodItem,
          estimateGramsFromMeasure (prop meal (measureKey i)) / 100).

(** The sum, in slot order, of a list of contributions. *)
Definition sumContributions (cs : list (NutrientProfile * float)) : MealTotals :=
  fold_left (λ totals c, addScaled totals c.1 c.2) cs noNutrients.

(** [[a-z]] *)
Definition isLowerAlpha (c : ascii) : bool := (97 <=? code c)%Z && (code c <=? 122)%Z.

(** Every code unit of [s] satisfies [p]. *)
Fixpoint allChars (p : ascii -> bool) (s : string) : bool :=
  match s with
  | EmptyString => true
  | String c s' => p c && allChars p s'
  end.

(** The text does not start with a code unit of class [p]. *)
Definition stopsAt (p : ascii -> bool) (s : string) : Prop :=
  match s with EmptyString => True | String c _ => p c = false end.

(** The pattern of the script, in words: a non-empty run of digits, dots and
    slashes at the start, then any white space, then at least one letter. *)
Definition matchesPattern (cleaned : string) : Prop :=
  ∃ quantity spaces unit rest : string,
    cleaned = (quantity ++ spaces ++ unit ++ rest)%string
    ∧ quantity ≠ EmptyString ∧ allChars isQuantityChar quantity = true
    ∧ allChars isWhiteSpace spaces = true
    ∧ unit ≠ EmptyString ∧ allChars isAlpha unit = true.

(** The pattern as the specification words it: the leading token is a number
    or a fraction, one that the script's own parsing reads as a number, and
    white space separates it from the unit. *)
Definition matchesSpacedPattern (cleaned : string) : Prop :=
  ∃ quantity spaces unit rest : string,
    cleaned = (quantity ++ spaces ++ unit ++ rest)%string
    ∧ quantity ≠ EmptyString ∧ allChars isQuantityChar quantity = true
    ∧ is_nan (parseQuantity quantity) = false
    ∧ spaces ≠ EmptyString ∧ allChars isWhiteSpace spaces = true
    ∧ unit ≠ EmptyString ∧ allChars isAlpha unit = true.

(** The condition on slot [i]: if it is not blank and its lookup returns a
    record, the record's values and the gram value estimated for its
    measure satisfy [P]. *)
Definition slotWithin (respond : nat -> string -> Response) (P : float -> bool)
    (meal : Meal) (i : nat) : bool :=
  isBlank (prop meal (ingredientKey i))
  || match firstRecord (respond i (toText (prop meal (ingredientKey i)))) with
     | Some foodItem =>
         allValues P foodItem
         && P (estimateGramsFromMeasure (prop meal (measureKey i)))
     | None => true
     end.

(** ** Binary64 values, as the IEEE 754 specification represents them *)

(** Zero, or finite with a clear sign, or [+Infinity]: what [0 <= x] holds
    for. *)
Definition SFnonneg (x : spec_float) : bool :=
  match x with
  | S754_zero _ => true
  | S754_finite s _ _ => negb s
  | S754_infinity s => negb s
  | S754_nan => false
  end.

Definition SFfinite (x : spec_float) : bool :=
  match x with
  | S754_zero _ | S754_finite _ _ _ => true
  | _ => false
  end.

Definition SFsign (x : spec_float) : bool :=
  match x with
  | S754_zero s | S754_finite s _ _ | S754_infinity s => s
  | S754_nan => false
  end.

(** The three shapes a rounded result of sign [s] can take. *)
Definition roundedWithSign (s : bool) (x : spec_float) : Prop :=
  x = S754_zero s ∨ x = S754_infinity s ∨ ∃ m e, x = S754_finite s m e.

(** The binary64 value 100. *)
Definition c100 : spec_float := S754_finite false 7036874417766400 (-46).

(** * Sample data *)

(** The first record for "apple": the numbers are read as the JSON parser
    reads them. *)
Definition apple : FoodItem :=
  {| foodNutrients :=
       [ {| nutrientName := "Energy"; value := parseFloat "52" |};
         {| nutrientName := "Protein"; value := parseFloat "0.3" |};
         {| nutrientName := "Carbohydrate, by difference"; value := parseFloat "14" |};
         {| nutrientName := "Total lipid (fat)"; value := parseFloat "0.2" |} ] |}.

(** A provider that knows apples only. *)
Definition applesOnly (i : nat) (query : string) : Response :=
  if String.eqb query "apple" then Body (Some [apple]) else Body (Some []).

(** A provider whose request for slot 2 throws. *)
Definition failsAtTwo (i : nat) (query : string) : Response :=
  if Nat.eqb i 2 then Throws else Body (Some [apple]).

Definition water : FoodItem :=
  {| foodNutrients := [ {| nutrientName := "Energy"; value := 0 |} ] |}.

Definition waterOnly (i : nat) (query : string) : Response := Body (Some [water]).

Definition saladMeal : Meal :=
  list_to_map
    [ ("idMeal", Str "52771");
      ("strIngredient1", Str "apple"); ("strMeasure1", Str "1/2 cup");
      ("strIngredient2", Str "walnuts"); ("strMeasure2", Str "2 tbsp");
      ("strIngredient3", Str "apple"); ("strMeasure3", Str "150g");
      ("strIngredient4", Str EmptyString); ("strMeasure4", Str " ");
      ("strIngredient5", Null); ("strMeasure5", Null) ].

Definition wateryMeal : Meal :=
  list_to_map [ ("strIngredient1", Str "water"); ("strMeasure1", Str "1/0 cup") ].

(** A record whose energy value overflows when the JSON parser reads it,
    and a meal that takes none of it. *)
Definition overflowing : FoodItem :=
  {| foodNutrients := [ {| nutrientName := "Energy"; value := parseFloat "1e999" |} ] |}.

Definition overflowingOnly (i : nat) (query : string) : Response :=
  Body (Some [overflowing]).

Definition emptyCupMeal : Meal :=
  list_to_map [ ("strIngredient1", Str "syrup"); ("strMeasure1", Str "0 cup") ].

(** * Aggregations that are not awaited *)

(** The aggregations that [fetchMealSuggestions] starts are not awaited:
    each runs its loop on its own totals and writes its four spans when its
    loop ends.  [settle] is the document once the aggregations of
    [finished] have ended in that order; each is a meal with the number it
    had among the meals started, and [respondFor j] is the nutrition
    provider as aggregation [j] sees it. *)
Definition settle (respondFor : nat -> nat -> string -> Response)
    (finished : list (nat * Meal)) (doc : Document) : Document :=
  fold_left (λ d jm, fst (estimateMealNutrition (respondFor jm.1) jm.2 d))
    finished doc.

(** ** What the statements about these compare with *)

(** The queries of the requests among the events, in the order sent. *)
Definition requestsOf (events : list Event) : list string :=
  omap (λ e, match e with Requested q => Some q | _ => None end) events.

(** The ingredients named in the warnings among the events, in order. *)
Definition warningsOf (events : list Event) : list string :=
  omap (λ e, match e with Warned q => Some q | _ => None end) events.

(** The slots of a meal that are not blank, in slot order. *)
Definition filledSlots (meal : Meal) : list nat :=
  filter (λ i, isBlank (prop meal (ingredientKey i)) = false) (seq 1 maxNumIngredients).

(** The text sent for slot [i]. *)
Definition slotQuery (meal : Meal) (i : nat) : string :=
  toText (prop meal (ingredientKey i)).

(** The ids of the four spans that the aggregation of a meal writes. *)
Definition mealSpans (meal : Meal) : list string :=
  let id := toText (prop meal "idMeal") in
  [ "meal-calories-" +:+ id; "meal-protein-" +:+ id;
    "meal-carbs-" +:+ id; "meal-fat-" +:+ id ].

(** A response that is a throw. *)
Definition isThrow (r : Response) : bool :=
  match r with Throws => true | Body _ => false end.

(** A second meal, with one ingredient. *)
Definition pieMeal : Meal :=
  list_to_map
    [ ("idMeal", Str "52893"); ("strMeal", Str "Apple Pie");
      ("strIngredient1", Str "apple"); ("strMeasure1", Str "2 cups") ].

(** ** Signs *)

(** [NaN], or a number whose sign bit is clear: neither a negative number
    nor [-0]. *)
Definition notNegative (x : float) : bool := is_nan x || hasClearSign x.

Definition profileNotNegative (p : NutrientProfile) : bool :=
  notNegative p.(calories) && notNegative p.(protein)
  && notNegative p.(carbs) && notNegative p.(fat).

(** Two numbers that differ as binary64 values are different. *)
Local Ltac float_discriminate :=
  let H := fresh in
  intros H; apply (f_equal Prim2SF) in H; vm_compute in H; discriminate H.

(** * Evaluation checks *)

Example parseFloat_decimal :
  parseFloat "0.3" = 0x1.3333333333333p-2
  ∧ parseFloat "150" = 150 ∧ parseFloat ".5" = 0.5 ∧ parseFloat "1." = 1
  ∧ parseFloat "1.5.2" = 1.5 ∧ parseFloat "  -12.5e-1xyz" = -1.25
  ∧ parseFloat "9007199254740993" = 9007199254740992
  ∧ parseFloat "1e999" = infinity.
Proof. repeat split; vm_compute; reflexivity. Qed.

Example parseFloat_not_a_number :
  parseFloat EmptyString = nan ∧ parseFloat "." = nan ∧ parseFloat "abc" = nan.
Proof. repeat split; vm_compute; reflexivity. Qed.

Example toFixed_rounds :
  toFixed 0x1.ccccccccccccdp-2 1 = "0.5"       (* 0.45 *)
  ∧ toFixed 0x1.cccccccccccccp-2 1 = "0.4"     (* 0.44999999999999996 *)
  ∧ toFixed 0x1.0147ae147ae14p+0 2 = "1.00"    (* 1.005 *)
  ∧ toFixed 2.5 0 = "3" ∧ toFixed 78 1 = "78.0" ∧ toFixed 0 1 = "0.0"
  ∧ toFixed nan 1 = "NaN" ∧ toFixed infinity 0 = "Infinity"
  ∧ toFixed 1e21 1 = "1e+21"
  ∧ toFixed 1180591620717411303424 1 = "1.1805916207174113e+21".
Proof. repeat split; vm_compute; reflexivity. Qed.

Example strings_evaluate :
  trim "  1/2 Cup  " = "1/2 Cup"
  ∧ toLowerCase "1/2 Cup" = "1/2 cup"
  ∧ split "/" "1/2/3" = ["1"; "2"; "3"]
  ∧ split "/" "/" = [EmptyString; EmptyString]
  ∧ split "/" "12" = ["12"]
  ∧ includes "/" "1/2" = true.
Proof. repeat split; reflexivity. Qed.

Example matchMeasure_evaluates :
  matchMeasure "1/2 cup" = Some ("1/2", "cup")
  ∧ matchMeasure "200g" = Some ("200", "g")
  ∧ matchMeasure "2 x 400g" = Some ("2", "x")
  ∧ matchMeasure "1 1/2 cups" = None
  ∧ matchMeasure "pinch" = None
  ∧ matchMeasure "1-2 tbsp" = None.
Proof. repeat split; reflexivity. Qed.

Example keys_evaluate :
  ingredientKey 1 = "strIngredient1" ∧ ingredientKey 20 = "strIngredient20"
  ∧ measureKey 7 = "strMeasure7".
Proof. repeat split; reflexivity. Qed.

Example estimateMealNutrition_evaluates :
  let '(doc, events) := estimateMealNutrition applesOnly saladMeal ∅ in
  doc !! "meal-calories-52771" = Some "140 kcal"
  ∧ doc !! "meal-protein-52771" = Some "0.8"
  ∧ doc !! "meal-carbs-52771" = Some "37.8"
  ∧ doc !! "meal-fat-52771" = Some "0.5"
  ∧ events = [Requested "apple"; Requested "walnuts"; Requested "apple"].
Proof. vm_compute. repeat split. Qed.

(** * The Nutrient Extractor *)

Section Extractor.

Implicit Types (n : Nutrient) (l : list Nutrient) (p : NutrientProfile).

Lemma extractNutrients_snoc l n :
  extractNutrients {| foodNutrients := l ++ [n] |}
  = visitNutrient (extractNutrients {| foodNutrients := l |}) n.
Proof. unfold extractNutrients; simpl. now rewrite fold_left_app. Qed.

Lemma lastValue_snoc name l n :
  lastValue name (l ++ [n])
  = if decide (n.(nutrientName) = name) then n.(value) else lastValue name l.
Proof.
  unfold lastValue. rewrite filter_app.
  destruct (decide (n.(nutrientName) = name)) as [Hn|Hn].
  - rewrite filter_cons_True, filter_nil, last_snoc by exact Hn. reflexivity.
  - rewrite filter_cons_False, filter_nil, app_nil_r by exact Hn. reflexivity.
Qed.

Lemma visitNutrient_unrecognized p n :
  n.(nutrientName) ∉ recognizedNames → visitNutrient p n = p.
Proof.
  intros Hn. unfold visitNutrient.
  repeat match goal with
         | |- context [String.eqb ?a ?b] =>
             destruct (String.eqb_spec a b) as [He|_];
             [ exfalso; apply Hn; rewrite He; unfold recognizedNames; set_solver | ]
         end.
  reflexivity.
Qed.

(** Each field after the scan is the value of the last entry of that name. *)
Lemma scan_lastValue l :
  let p := extractNutrients {| foodNutrients := l |} in
  p.(calories) = lastValue "Energy" l
  ∧ p.(protein) = lastValue "Protein" l
  ∧ p.(carbs) = lastValue "Carbohydrate, by difference" l
  ∧ p.(fat) = lastValue "Total lipid (fat)" l.
Proof.
  induction l as [|n l IH] using rev_ind.
  - repeat split.
  - cbn zeta in *. rewrite extractNutrients_snoc, !lastValue_snoc.
    destruct IH as (Hc & Hp & Hb & Hf).
    unfold visitNutrient.
    destruct (String.eqb_spec n.(nutrientName) "Energy") as [E1|E1].
    { rewrite E1; simpl. repeat split; assumption. }
    destruct (String.eqb_spec n.(nutrientName) "Protein") as [E2|E2].
    { rewrite E2; simpl. repeat split; assumption. }
    destruct (String.eqb_spec n.(nutrientName) "Carbohydrate, by difference") as [E3|E3].
    { rewrite E3; simpl. repeat split; assumption. }
    destruct (String.eqb_spec n.(nutrientName) "Total lipid (fat)") as [E4|E4].
    { rewrite E4; simpl. repeat split; assumption. }
    rewrite !decide_False by assumption. repeat split; assumption.
Qed.

Lemma scan_unrecognized l :
  (∀ n, n ∈ l → n.(nutrientName) ∉ recognizedNames) →
  extractNutrients {| foodNutrients := l |} = noNutrients.
Proof.
  induction l as [|n l IH] using rev_ind; intros Hl; [reflexivity|].
  rewrite extractNutrients_snoc, IH.
  - apply visitNutrient_unrecognized, Hl. set_solver.
  - intros m Hm. apply Hl. set_solver.
Qed.

(** C2: the extractor starts from the all-zero profile; after the scan each
    field holds the value of the last entry whose name is exactly the
    recognised one for that field, and 0 when there is none, so that a
    later entry of the same name replaces an earlier one and nothing is
    summed; an entry of any other name changes nothing; a record without
    recognised names gives the all-zero profile.  The function is total:
    no record makes it fail. *)
Theorem extractNutrients_last_match (foodItem : FoodItem) :
  extractNutrients {| foodNutrients := [] |} = noNutrients
  ∧ (extractNutrients foodItem).(calories)
    = lastValue "Energy" foodItem.(foodNutrients)
  ∧ (extractNutrients foodItem).(protein)
    = lastValue "Protein" foodItem.(foodNutrients)
  ∧ (extractNutrients foodItem).(carbs)
    = lastValue "Carbohydrate, by difference" foodItem.(foodNutrients)
  ∧ (extractNutrients foodItem).(fat)
    = lastValue "Total lipid (fat)" foodItem.(foodNutrients)
  ∧ (∀ before n after,
       n.(nutrientName) ∉ recognizedNames →
       extractNutrients {| foodNutrients := before ++ n :: after |}
       = extractNutrients {| foodNutrients := before ++ after |})
  ∧ ((∀ n, n ∈ foodItem.(foodNutrients) → n.(nutrientName) ∉ recognizedNames) →
     extractNutrients foodItem = noNutrients).
Proof.
  destruct foodItem as [l]; simpl.
  split; [reflexivity|].
  destruct (scan_lastValue l) as (Hc & Hp & Hb & Hf).
  repeat (split; [assumption|]).
  split.
  - intros before n after Hn. unfold extractNutrients; simpl.
    rewrite !fold_left_app; simpl.
    now rewrite (visitNutrient_unrecognized _ _ Hn).
  - apply scan_unrecognized.
Qed.

End Extractor.

(** * The Aggregator *)

Section Aggregator.

Variable respond : nat -> string -> Response.

Implicit Types (meal : Meal) (totals : MealTotals) (events : list Event).

Lemma ingredientKey_inj i j : ingredientKey i = ingredientKey j → i = j.
Proof.
  unfold ingredientKey; simpl. intros H. injection H as H.
  exact (inj pretty _ _ H).
Qed.

Lemma measureKey_not_ingredientKey i j : measureKey i ≠ ingredientKey j.
Proof. unfold measureKey, ingredientKey; simpl. discriminate. Qed.

Lemma prop_delete_ne meal k k' : k ≠ k' → prop (delete k meal) k' = prop meal k'.
Proof. intros Hk. unfold prop. now rewrite lookup_delete_ne. Qed.

Lemma prop_delete_eq meal k : prop (delete k meal) k = Undefined.
Proof. unfold prop. now rewrite lookup_delete_eq. Qed.



(** What one iteration does to the totals. *)
Lemma ingredientStep_totals meal st i :
  fst (ingredientStep respond meal st i)
  = match slotContribution respond meal i with
    | Some c => addScaled (fst st) c.1 c.2
    | None => fst st
    end.
Proof.
  unfold ingredientStep, slotContribution. destruct st as [totals events].
  fold (ingredientKey i) (measureKey i).
  destruct (isBlank _); [reflexivity|].
  destruct (respond i _) as [|[[|foodItem rest]|]]; reflexivity.
Qed.

(** The loop over any list of slots adds the contributions of those slots,
    in order. *)
Lemma loop_totals meal (slots : list nat) st :
  fst (fold_left (ingredientStep respond meal) slots st)
  = fold_left (λ totals c, addScaled totals c.1 c.2)
      (omap (slotContribution respond meal) slots) (fst st).
Proof.
  revert st. induction slots as [|i slots IH]; intros st; [reflexivity|].
  cbn [fold_left]. rewrite IH, ingredientStep_totals. simpl.
  destruct (slotContribution respond meal i); reflexivity.
Qed.

Lemma mealLoop_totals meal :
  fst (mealLoop respond meal)
  = sumContributions (omap (slotContribution respond meal) (seq 1 maxNumIngredients)).
Proof. unfold mealLoop. now rewrite loop_totals. Qed.

(** Removing the ingredient of slot [i] changes no other slot. *)
Lemma slotContribution_delete_ne meal i j :
  i ≠ j →
  slotContribution respond (delete (ingredientKey i) meal) j
  = slotContribution respond meal j.
Proof.
  intros Hij. unfold slotContribution.
  rewrite !prop_delete_ne; [reflexivity| |].
  - intros H. symmetry in H. now apply measureKey_not_ingredientKey in H.
  - intros H. now apply ingredientKey_inj in H.
Qed.

Lemma slotContribution_delete_eq meal i :
  slotContribution respond (delete (ingredientKey i) meal) i = None.
Proof. unfold slotContribution. now rewrite prop_delete_eq. Qed.

Lemma slotContribution_failed meal i :
  firstRecord (respond i (toText (prop meal (ingredientKey i)))) = None →
  slotContribution respond meal i = None.
Proof.
  intros Hf. unfold slotContribution.
  destruct (isBlank _); [reflexivity|]. now rewrite Hf.
Qed.



(** C3: when the lookup of slot [i] fails, by throwing or by returning no
    record, the iteration leaves the totals as they were and the loop goes
    on: the final totals are the sum, in slot order, of the contributions of
    the slots whose lookup succeeded, and they are the totals of the same
    meal without ingredient [i]; a lookup that throws is only logged. *)
Theorem failure_isolation (meal : Meal) (i : nat)
    (Hfail : firstRecord (respond i (toText (prop meal (ingredientKey i)))) = None) :
  (∀ st, fst (ingredientStep respond meal st i) = fst st)
  ∧ fst (mealLoop respond meal)
    = sumContributions (omap (slotContribution respond meal) (seq 1 maxNumIngredients))
  ∧ fst (mealLoop respond meal)
    = fst (mealLoop respond (delete (ingredientKey i) meal))
  ∧ (∀ totals events,
       isBlank (prop meal (ingredientKey i)) = false →
       respond i (toText (prop meal (ingredientKey i))) = Throws →
       ingredientStep respond meal (totals, events) i
       = (totals, (events ++ [Requested (toText (prop meal (ingredientKey i)));
                              Warned (toText (prop meal (ingredientKey i)))])%list)).
Proof.
  split; [|split; [|split]].
  - intros st. rewrite ingredientStep_totals.
    now rewrite slotContribution_failed.
  - apply mealLoop_totals.
  - rewrite !mealLoop_totals. f_equal.
    apply list_omap_ext, Forall_Forall2_diag, Forall_forall. intros j _.
    destruct (decide (i = j)) as [<-|Hij].
    + now rewrite slotContribution_delete_eq, slotContribution_failed.
    + now rewrite slotContribution_delete_ne.
  - intros totals events Hb Ht. unfold ingredientStep.
    fold (ingredientKey i). now rewrite Hb, Ht.
Qed.

End Aggregator.

(** * The Quantity Normalizer *)

Section Normalizer.

Implicit Types (s a b : string) (p : ascii -> bool) (c : ascii).

Lemma append_nil b : (EmptyString ++ b)%string = b.
Proof. reflexivity. Qed.

Lemma append_cons c a b : (String c a ++ b)%string = String c (a ++ b)%string.
Proof. reflexivity. Qed.

Lemma append_assoc a b s : ((a ++ b) ++ s)%string = (a ++ b ++ s)%string.
Proof.
  induction a as [|c a IH]; [reflexivity|].
  rewrite !append_cons. now rewrite IH.
Qed.

Lemma span_spec p s :
  s = (fst (span p s) ++ snd (span p s))%string
  ∧ allChars p (fst (span p s)) = true
  ∧ stopsAt p (snd (span p s)).
Proof.
  induction s as [|c s (IH1 & IH2 & IH3)]; [now repeat split|].
  simpl. destruct (p c) eqn:Hc; [|now repeat split].
  destruct (span p s) as [a b]; simpl in *.
  rewrite Hc, IH2, append_cons, <- IH1. now repeat split.
Qed.

(** A run of [p] followed by something that does not start with [p] is cut
    exactly there. *)
Lemma span_exact p a b :
  allChars p a = true → stopsAt p b → span p (a ++ b) = (a, b).
Proof.
  intros Ha Hb. induction a as [|c a IH].
  - rewrite append_nil. destruct b as [|c b]; [reflexivity|].
    simpl. now rewrite Hb.
  - simpl in Ha. apply andb_prop in Ha as [Hc Ha].
    rewrite append_cons. simpl. now rewrite Hc, IH.
Qed.

Lemma isEmpty_true s : isEmpty s = true ↔ s = EmptyString.
Proof. destruct s; simpl; split; congruence. Qed.

Lemma isEmpty_false s : isEmpty s = false ↔ s ≠ EmptyString.
Proof. destruct s; simpl; split; congruence. Qed.

Lemma allChars_app p a b :
  allChars p (a ++ b) = allChars p a && allChars p b.
Proof.
  induction a as [|c a IH]; [reflexivity|].
  rewrite append_cons. simpl. now rewrite IH, andb_assoc.
Qed.

(** The three classes of the pattern are pairwise disjoint. *)
Lemma classes_disjoint c :
  (isWhiteSpace c = true → isQuantityChar c = false)
  ∧ (isAlpha c = true → isQuantityChar c = false)
  ∧ (isAlpha c = true → isWhiteSpace c = false).
Proof.
  destruct c as [[] [] [] [] [] [] [] []]; vm_compute; repeat split; congruence.
Qed.

(** What the scan captures: the quantity is a non-empty run of digits, dots
    and slashes at the start, and the unit is the whole run of letters that
    follows any white space after it. *)
Lemma matchMeasure_sound s quantity unit :
  matchMeasure s = Some (quantity, unit) →
  ∃ spaces rest : string,
    s = (quantity ++ spaces ++ unit ++ rest)%string
    ∧ quantity ≠ EmptyString ∧ allChars isQuantityChar quantity = true
    ∧ allChars isWhiteSpace spaces = true
    ∧ unit ≠ EmptyString ∧ allChars isAlpha unit = true
    ∧ stopsAt isAlpha rest.
Proof.
  unfold matchMeasure.
  destruct (span_spec isQuantityChar s) as (Hs & Hq & _).
  destruct (span isQuantityChar s) as [q r]; simpl in *.
  destruct (isEmpty q) eqn:Eq; [discriminate|].
  destruct (span_spec isWhiteSpace r) as (Hr & Hw & _).
  destruct (span isWhiteSpace r) as [w r']; simpl in *.
  destruct (span_spec isAlpha r') as (Hr' & Hu & Hstop).
  destruct (span isAlpha r') as [u r'']; simpl in *.
  destruct (isEmpty u) eqn:Eu; [discriminate|].
  intros [= <- <-]. exists w, r''.
  apply isEmpty_false in Eq, Eu. subst r' r. auto 10.
Qed.

(** A text of that shape is captured that way, and no other. *)
Lemma matchMeasure_complete quantity spaces unit rest :
  quantity ≠ EmptyString → allChars isQuantityChar quantity = true →
  allChars isWhiteSpace spaces = true →
  unit ≠ EmptyString → allChars isAlpha unit = true →
  stopsAt isAlpha rest →
  matchMeasure (quantity ++ spaces ++ unit ++ rest) = Some (quantity, unit).
Proof.
  intros Hq0 Hq Hw Hu0 Hu Hstop. unfold matchMeasure.
  destruct unit as [|c u]; [congruence|].
  simpl in Hu. pose proof Hu as Hcu. apply andb_prop in Hcu as [Hc _].
  destruct (classes_disjoint c) as (_ & Hcq & Hcw).
  rewrite (span_exact isQuantityChar quantity (spaces ++ String c u ++ rest));
    [|assumption|].
  - apply isEmpty_false in Hq0. rewrite Hq0.
    rewrite (span_exact isWhiteSpace spaces (String c u ++ rest))
      by (rewrite ?append_cons; simpl; auto).
    now rewrite (span_exact isAlpha (String c u) rest).
  - destruct spaces as [|d w]; [rewrite append_nil, append_cons; now apply Hcq|].
    rewrite append_cons. simpl in Hw |- *. apply andb_prop in Hw as [Hd _].
    destruct (classes_disjoint d) as (Hdq & _). now apply Hdq.
Qed.

(** The scan agrees with the greedy match of
    [/^([\d./]+)\s*([a-zA-Z]+)/]: it returns [(quantity, unit)] exactly when
    the text is [quantity], white space or none, [unit], and a rest that
    does not go on with a letter. *)
Theorem measure_pattern_captures (cleaned quantity unit : string) :
  matchMeasure cleaned = Some (quantity, unit)
  ↔ ∃ spaces rest : string,
      cleaned = (quantity ++ spaces ++ unit ++ rest)%string
      ∧ quantity ≠ EmptyString ∧ allChars isQuantityChar quantity = true
      ∧ allChars isWhiteSpace spaces = true
      ∧ unit ≠ EmptyString ∧ allChars isAlpha unit = true
      ∧ stopsAt isAlpha rest.
Proof.
  split.
  - apply matchMeasure_sound.
  - intros (spaces & rest & -> & Hq0 & Hq & Hw & Hu0 & Hu & Hstop).
    now apply matchMeasure_complete.
Qed.

(** However a text is cut to fit the pattern, the scan captures the same
    quantity. *)
Lemma pattern_quantity (q w u rest : string) :
  q ≠ EmptyString → allChars isQuantityChar q = true →
  allChars isWhiteSpace w = true →
  u ≠ EmptyString → allChars isAlpha u = true →
  ∃ unit, matchMeasure (q ++ w ++ u ++ rest) = Some (q, unit).
Proof.
  intros Hq0 Hq Hw Hu0 Hu.
  destruct (span_spec isAlpha rest) as (Hrest & Hmore & Hstop).
  exists (u ++ fst (span isAlpha rest))%string.
  rewrite Hrest at 1. rewrite <- (append_assoc u).
  apply matchMeasure_complete; auto.
  - destruct u; [congruence|discriminate].
  - now rewrite allChars_app, Hu, Hmore.
Qed.

(** The scan finds a match exactly when the text has the shape of the
    pattern. *)
Lemma matchMeasure_matches s :
  is_Some (matchMeasure s) ↔ matchesPattern s.
Proof.
  unfold matchesPattern. split.
  - intros [[q u] Hm]. apply matchMeasure_sound in Hm.
    destruct Hm as (w & rest & Hs & Hq0 & Hq & Hw & Hu0 & Hu & _).
    exists q, w, u, rest. auto 10.
  - intros (q & w & u & rest & -> & Hq0 & Hq & Hw & Hu0 & Hu).
    destruct (pattern_quantity q w u rest Hq0 Hq Hw Hu0 Hu) as [unit Hm].
    rewrite Hm. eauto.
Qed.

Lemma matchMeasure_None s : ¬ matchesPattern s → matchMeasure s = None.
Proof.
  intros Hs. destruct (matchMeasure s) eqn:E; [|reflexivity].
  exfalso. apply Hs, matchMeasure_matches. eauto.
Qed.

Lemma trim_empty : trim EmptyString = EmptyString.
Proof. reflexivity. Qed.

(** A measure that matches is not the empty string, so the first guard of
    the function is passed. *)
Lemma estimate_matched (measure quantity unit : string) :
  matchMeasure (toLowerCase (trim measure)) = Some (quantity, unit) →
  estimateGramsFromMeasure (Str measure)
  = parseQuantity quantity * gramsPerUnit unit.
Proof.
  intros Hm. unfold estimateGramsFromMeasure.
  destruct measure as [|c measure]; [discriminate|].
  simpl isEmpty. cbv iota. now rewrite Hm.
Qed.

(** A text without white space does not have the shape that requires some. *)
Lemma spaced_needs_space s :
  allChars (λ c, negb (isWhiteSpace c)) s = true → ¬ matchesSpacedPattern s.
Proof.
  intros Hs (q & w & u & rest & -> & _ & _ & _ & Hw0 & Hw & _).
  rewrite !allChars_app in Hs.
  destruct w as [|d w]; [congruence|]. simpl in Hs, Hw.
  destruct (isWhiteSpace d); simpl in *; [|discriminate].
  rewrite andb_false_r in Hs. discriminate.
Qed.

(** A text whose captured quantity does not parse to a number does not have
    the shape that requires a number. *)
Lemma spaced_needs_number s quantity unit :
  matchMeasure s = Some (quantity, unit) →
  is_nan (parseQuantity quantity) = true → ¬ matchesSpacedPattern s.
Proof.
  intros Hm Hnan (q & w & u & rest & -> & Hq0 & Hq & Hnum & _ & Hw & Hu0 & Hu).
  destruct (pattern_quantity q w u rest Hq0 Hq Hw Hu0 Hu) as [unit' Hm'].
  rewrite Hm' in Hm. injection Hm as -> _. congruence.
Qed.

(** C4, as amended: [undefined], [null] and the empty string give 100, and
    so does every string that, once trimmed and put in lower case, does not
    start with a non-empty run of digits, dots and slashes followed by any
    white space, possibly none, and then a letter. *)
Theorem unmatched_measure_default (measure : string)
    (Hno : ¬ matchesPattern (toLowerCase (trim measure))) :
  estimateGramsFromMeasure Undefined = 100
  ∧ estimateGramsFromMeasure Null = 100
  ∧ estimateGramsFromMeasure (Str EmptyString) = 100
  ∧ estimateGramsFromMeasure (Str measure) = 100.
Proof.
  repeat (split; [reflexivity|]).
  unfold estimateGramsFromMeasure.
  destruct (isEmpty measure); [reflexivity|].
  now rewrite (matchMeasure_None _ Hno).
Qed.

End Normalizer.

(** The default at "abc", which has no leading number. *)
Lemma unmatched_measure_default_witness :
  estimateGramsFromMeasure (Str "abc") = 100.
Proof.
  refine (proj2 (proj2 (proj2 (unmatched_measure_default "abc" _)))).
  intros H. apply matchMeasure_matches in H. vm_compute in H.
  destruct H as [x H]. discriminate H.
Defined.

(** C4, as stated, fails twice.  "2tbsp" has no white space between the
    number and the unit, and the function returns 30 for it.  In "/ cup"
    the leading token is not a number, and the function returns [NaN].
    Neither is the default. *)
Lemma unspaced_measure_not_default :
  ¬ matchesSpacedPattern (toLowerCase (trim "2tbsp"))
  ∧ estimateGramsFromMeasure (Str "2tbsp") = 30
  ∧ estimateGramsFromMeasure (Str "2tbsp") ≠ 100
  ∧ ¬ matchesSpacedPattern (toLowerCase (trim "/ cup"))
  ∧ estimateGramsFromMeasure (Str "/ cup") = nan
  ∧ estimateGramsFromMeasure (Str "/ cup") ≠ 100.
Proof.
  split; [|split; [|split; [|split; [|split]]]].
  - apply spaced_needs_space. reflexivity.
  - vm_compute. reflexivity.
  - float_discriminate.
  - apply (spaced_needs_number _ "/" "cup"); vm_compute; reflexivity.
  - vm_compute. reflexivity.
  - float_discriminate.
Qed.

(** C5: the five test vectors of the normalizer. *)
Theorem normalizer_test_vectors :
  estimateGramsFromMeasure (Str "1/2 cup") = 120
  ∧ estimateGramsFromMeasure (Str "2 tbsp") = 30
  ∧ estimateGramsFromMeasure (Str EmptyString) = 100
  ∧ estimateGramsFromMeasure (Str "abc") = 100
  ∧ estimateGramsFromMeasure (Str "3 grams") = 3.
Proof. repeat split; vm_compute; reflexivity. Qed.

(** Isolation at a provider whose second request throws. *)
Lemma failure_isolation_witness :
  fst (mealLoop failsAtTwo saladMeal)
  = fst (mealLoop failsAtTwo (delete (ingredientKey 2) saladMeal)).
Proof.
  exact (proj1 (proj2 (proj2
           (failure_isolation failsAtTwo saladMeal 2 eq_refl)))).
Defined.

(** * Facts about binary64 arithmetic

    Signs and overflow of [+], [*] and [/], read off the IEEE 754
    specification of the kernel's operations. *)
Module Binary64.

Local Open Scope Z_scope.

Lemma digits2_bounds (p : positive) :
  2 ^ (Zpos (digits2_pos p) - 1) <= Zpos p < 2 ^ Zpos (digits2_pos p).
Proof.
  induction p as [p IH|p IH|]; simpl digits2_pos.
  - rewrite Pos2Z.inj_succ, Z.pow_succ_r by lia.
    replace (Z.succ (Zpos (digits2_pos p)) - 1) with (Z.succ (Zpos (digits2_pos p) - 1)) by lia.
    rewrite Z.pow_succ_r by lia. lia.
  - rewrite Pos2Z.inj_succ, Z.pow_succ_r by lia.
    replace (Z.succ (Zpos (digits2_pos p)) - 1) with (Z.succ (Zpos (digits2_pos p) - 1)) by lia.
    rewrite Z.pow_succ_r by lia. lia.
  - simpl. lia.
Qed.

(** A non-negative integer below [2^D] has at most [D] binary digits. *)
Lemma Zdigits2_le (m D : Z) : 0 <= m < 2 ^ D → 0 <= D → 0 <= Zdigits2 m <= D.
Proof.
  intros [Hm0 Hm] HD. destruct m as [|p|p]; simpl; [lia| |lia].
  pose proof (digits2_bounds p) as [Hlo _].
  split; [lia|].
  destruct (Z_lt_le_dec D (Zpos (digits2_pos p))) as [Hlt|]; [|assumption].
  exfalso. assert (2 ^ D <= 2 ^ (Zpos (digits2_pos p) - 1)) by (apply Z.pow_le_mono_r; lia).
  lia.
Qed.

Lemma iter_pos_invariant {A} (P : A → Prop) (f : A → A) :
  (∀ x, P x → P (f x)) → ∀ n x, P x → P (SpecFloat.iter_pos f n x).
Proof.
  intros Hf. induction n as [n IH|n IH|]; intros x Hx; simpl; auto.
Qed.

Lemma shr_1_bounds (M : Z) (mrs : shr_record) :
  0 <= shr_m mrs <= M → 0 <= shr_m (shr_1 mrs) <= M.
Proof.
  destruct mrs as [m r s]; simpl.
  destruct m as [|[p|p|]|p]; simpl; lia.
Qed.

(** Shifting right keeps the mantissa between 0 and what it was, and moves
    the exponent up to the format's exponent for that many digits. *)
Lemma shr_fexp_bounds (m e : Z) (l : location) :
  0 <= m →
  0 <= shr_m (fst (shr_fexp prec emax m e l)) <= m
  ∧ snd (shr_fexp prec emax m e l) = Z.max e (fexp prec emax (Zdigits2 m + e)).
Proof.
  intros Hm. unfold shr_fexp, shr.
  assert (Hrec : 0 <= shr_m (shr_record_of_loc m l) <= m)
    by (destruct l as [|[]]; simpl; lia).
  destruct (fexp prec emax (Zdigits2 m + e) - e) as [|n|n] eqn:En; simpl.
  - split; [assumption|lia].
  - split; [|lia].
    apply (iter_pos_invariant (λ mrs, 0 <= shr_m mrs <= m)); [|assumption].
    intros x. apply shr_1_bounds.
  - split; [assumption|lia].
Qed.

Lemma round_nearest_even_bounds (m : Z) (l : location) :
  0 <= m → 0 <= round_nearest_even m l <= m + 1.
Proof.
  intros Hm. destruct l as [|[]]; simpl; try lia.
  destruct (Z.even m); lia.
Qed.

(** Rounding a non-negative mantissa gives a zero, a finite number or an
    infinity of the requested sign, never [NaN]. *)
Lemma binary_round_aux_sign (s : bool) (m e : Z) (l : location) :
  0 <= m → roundedWithSign s (binary_round_aux prec emax s m e l).
Proof.
  intros Hm. unfold binary_round_aux.
  destruct (shr_fexp_bounds m e l Hm) as [H1 _].
  destruct (shr_fexp prec emax m e l) as [mrs' e']; simpl in H1.
  pose proof (round_nearest_even_bounds (shr_m mrs') (loc_of_shr_record mrs') (proj1 H1)) as H2.
  destruct (shr_fexp_bounds (round_nearest_even (shr_m mrs') (loc_of_shr_record mrs')) e'
              loc_Exact (proj1 H2)) as [H3 _].
  destruct (shr_fexp prec emax _ e' loc_Exact) as [mrs'' e'']; simpl in H3.
  unfold roundedWithSign.
  destruct (shr_m mrs'') as [|p|p]; [auto| |lia].
  destruct (e'' <=? emax - prec); eauto.
Qed.

(** Rounding a mantissa of at most 54 digits at an exponent of at most 964
    does not overflow. *)
Lemma binary_round_aux_finite (s : bool) (m e : Z) (l : location) :
  0 <= m < 2 ^ 54 → e <= 964 →
  SFfinite (binary_round_aux prec emax s m e l) = true.
Proof.
  intros Hm He. unfold binary_round_aux.
  destruct (shr_fexp_bounds m e l (proj1 Hm)) as [H1 E1].
  destruct (shr_fexp prec emax m e l) as [mrs' e']; simpl in H1, E1.
  pose proof (round_nearest_even_bounds (shr_m mrs') (loc_of_shr_record mrs') (proj1 H1)) as H2.
  set (m1 := round_nearest_even (shr_m mrs') (loc_of_shr_record mrs')) in *.
  destruct (shr_fexp_bounds m1 e' loc_Exact (proj1 H2)) as [H3 E3].
  destruct (shr_fexp prec emax m1 e' loc_Exact) as [mrs'' e'']; simpl in H3, E3.
  assert (D0 : 0 <= Zdigits2 m <= 54) by (apply Zdigits2_le; lia).
  assert (D1 : 0 <= Zdigits2 m1 <= 55).
  { apply Zdigits2_le; [|lia]. change (2 ^ 55) with (2 * 2 ^ 54). lia. }
  unfold fexp, SpecFloat.emin, prec, emax in *.
  destruct (shr_m mrs'') as [|p|p]; [reflexivity| |lia].
  destruct (e'' <=? 1024 - 53) eqn:Ee; [reflexivity|].
  apply Z.leb_gt in Ee. lia.
Qed.

(** The quotient of a binary64 mantissa by the mantissa of 100, before
    rounding: at most 54 digits, at an exponent of at most 964. *)
Lemma div_core_100_bounds (mx : positive) (ex : Z) :
  bounded prec emax mx ex = true →
  let '(mz, ez, _) :=
    SFdiv_core_binary prec emax (Zpos mx) ex 7036874417766400 (-46) in
  0 <= mz < 2 ^ 54 ∧ ez <= 964.
Proof.
  unfold bounded, canonical_mantissa. intros Hb.
  apply andb_prop in Hb as [Hc He].
  apply Z.eqb_eq in Hc. apply Z.leb_le in He.
  pose proof (digits2_bounds mx) as [_ Hmx].
  unfold SFdiv_core_binary.
  change (Zdigits2 7036874417766400) with 53.
  change (Zdigits2 (Zpos mx)) with (Zpos (digits2_pos mx)).
  set (d1 := Zpos (digits2_pos mx)) in *.
  assert (Hd1 : 0 < d1) by (unfold d1; lia).
  unfold fexp, SpecFloat.emin, prec, emax in *.
  set (e' := Z.min (Z.max (d1 + ex - (53 + -46) - 53) (3 - 1024 - 53)) (ex - -46)).
  set (sh := ex - -46 - e').
  assert (Hsh : 0 <= sh <= 106 - d1) by (unfold sh, e'; lia).
  set (m' := match sh with Zpos _ => Z.shiftl (Zpos mx) sh | Z0 => Zpos mx | Zneg _ => 0 end).
  assert (Hm' : 0 <= m' < 2 ^ 106).
  { assert (Hpow : Zpos mx * 2 ^ sh < 2 ^ 106).
    { apply Z.lt_le_trans with (2 ^ d1 * 2 ^ sh).
      - apply Z.mul_lt_mono_pos_r; [apply Z.pow_pos_nonneg; lia|assumption].
      - rewrite <- Z.pow_add_r by lia. apply Z.pow_le_mono_r; lia. }
    unfold m'. destruct sh as [|n|n] eqn:Esh.
    - rewrite Z.pow_0_r in Hpow. lia.
    - rewrite Z.shiftl_mul_pow2 by lia. split; [|assumption].
      apply Z.mul_nonneg_nonneg; [lia|apply Z.pow_nonneg; lia].
    - lia. }
  pose proof (Z_div_mod m' 7036874417766400 eq_refl) as Hdiv.
  destruct (Z.div_eucl m' 7036874417766400) as [q r].
  destruct Hdiv as [Hq Hr].
  change (2 ^ 106) with 81129638414606681695789005144064 in Hm'.
  change (2 ^ 54) with 18014398509481984.
  split; [lia|]. unfold e'. lia.
Qed.

Lemma div_core_nonneg (m1 e1 m2 e2 : Z) :
  0 <= m1 → 0 < m2 →
  0 <= fst (fst (SFdiv_core_binary prec emax m1 e1 m2 e2)).
Proof.
  intros H1 H2. unfold SFdiv_core_binary.
  set (sh := _ - _ - Z.min _ _).
  set (m' := match sh with Zpos _ => Z.shiftl m1 sh | Z0 => m1 | Zneg _ => 0 end).
  assert (Hm' : 0 <= m').
  { unfold m'. destruct sh; [assumption| |lia]. now apply Z.shiftl_nonneg. }
  pose proof (Z_div_mod m' m2 (Z.lt_gt _ _ H2)) as Hdiv.
  destruct (Z.div_eucl m' m2) as [q r]. simpl. nia.
Qed.

(** ** The specification-level operations *)

Lemma SFdiv_100 (a : spec_float) :
  valid_binary a = true → SFfinite a = true →
  SFfinite (SF64div a c100) = true
  ∧ SFsign (SF64div a c100) = SFsign a
  ∧ (SFnonneg a = true → SFnonneg (SF64div a c100) = true).
Proof.
  intros Hv Hf. destruct a as [s|s| |s m e]; try discriminate.
  - simpl. now rewrite xorb_false_r.
  - unfold SF64div, SFdiv, c100. rewrite xorb_false_r.
    simpl in Hv. pose proof (div_core_100_bounds m e Hv) as Hb.
    destruct (SFdiv_core_binary prec emax (Zpos m) e 7036874417766400 (-46))
      as [[mz ez] lz].
    destruct Hb as [Hmz Hez].
    pose proof (binary_round_aux_finite s mz ez lz Hmz Hez) as Hfin.
    destruct (binary_round_aux_sign s mz ez lz (proj1 Hmz)) as [E|[E|(m' & e' & E)]];
      rewrite E in *; simpl in *; try discriminate; auto.
Qed.

Lemma SFmul_nonneg (a b : spec_float) :
  SFfinite a = true → SFnonneg a = true →
  SFfinite b = true → SFnonneg b = true →
  SFnonneg (SF64mul a b) = true.
Proof.
  destruct a as [sa|sa| |sa ma ea], b as [sb|sb| |sb mb eb]; try discriminate;
    try reflexivity. simpl. intros _ Ha _ Hb.
  apply negb_true_iff in Ha, Hb. subst sa sb.
  destruct (binary_round_aux_sign (xorb false false) (Zpos (ma * mb)) (ea + eb) loc_Exact)
    as [->|[->|(m' & e' & ->)]]; [lia|reflexivity..].
Qed.

Lemma binary_round_sign (s : bool) (m : positive) (e : Z) :
  roundedWithSign s (binary_round prec emax s m e).
Proof.
  unfold binary_round. destruct (shl_align m e _) as [mz ez].
  apply binary_round_aux_sign. lia.
Qed.

Lemma SFadd_nonneg (a b : spec_float) :
  SFnonneg a = true → SFnonneg b = true → SFnonneg (SF64add a b) = true.
Proof.
  destruct a as [sa|sa| |sa ma ea], b as [sb|sb| |sb mb eb]; try discriminate;
    simpl; intros Ha Hb; try assumption;
    try (apply negb_true_iff in Ha; subst sa);
    try (apply negb_true_iff in Hb; subst sb); try reflexivity.
  - now destruct sa, sb.
  - unfold SF64add, SFadd, cond_Zopp, binary_normalize.
    set (x := Zpos (fst (shl_align ma ea (Z.min ea eb)))).
    set (y := Zpos (fst (shl_align mb eb (Z.min ea eb)))).
    assert (Hxy : 0 < x + y) by (unfold x, y; lia).
    destruct (x + y) as [|p|p]; [lia| |lia].
    destruct (binary_round_sign false p (Z.min ea eb)) as [->|[->|(m' & e' & ->)]];
      reflexivity.
Qed.

(** A finite number divided by a finite number other than zero is a
    number. *)
Lemma SFdiv_defined (a b : spec_float) :
  SFfinite a = true → (∃ s m e, b = S754_finite s m e) →
  SF64div a b ≠ S754_nan.
Proof.
  intros Ha (sb & mb & eb & ->).
  destruct a as [sa|sa| |sa ma ea]; try discriminate.
  unfold SF64div, SFdiv.
  pose proof (div_core_nonneg (Zpos ma) ea (Zpos mb) eb) as Hq.
  destruct (SFdiv_core_binary prec emax (Zpos ma) ea (Zpos mb) eb) as [[mz ez] lz].
  simpl in Hq.
  destruct (binary_round_aux_sign (xorb sa sb) mz ez lz) as [->|[->|(m' & e' & ->)]];
    [apply Hq; lia|discriminate..].
Qed.

(** ** The kernel's operations *)

Local Open Scope float_scope.

Lemma SFeqb_refl_finite (s : bool) (m : positive) (e : Z) :
  SFeqb (S754_finite s m e) (S754_finite s m e) = true.
Proof.
  unfold SFeqb, SFcompare.
  destruct s; now rewrite Z.compare_refl, Pos.compare_cont_refl.
Qed.

Lemma is_nan_spec (x : float) :
  is_nan x = match Prim2SF x with S754_nan => true | _ => false end.
Proof.
  unfold is_nan. rewrite FloatAxioms.eqb_spec.
  destruct (Prim2SF x) as [s|s| |s m e]; [now destruct s..|reflexivity|].
  now rewrite SFeqb_refl_finite.
Qed.

Lemma is_zero_spec (x : float) :
  is_zero x = match Prim2SF x with S754_zero _ => true | _ => false end.
Proof.
  unfold is_zero. rewrite FloatAxioms.eqb_spec.
  change (Prim2SF zero) with (S754_zero false).
  destruct (Prim2SF x) as [s|s| |s m e]; try reflexivity; now destruct s.
Qed.

Lemma is_infinity_spec (x : float) :
  is_infinity x = match Prim2SF x with S754_infinity _ => true | _ => false end.
Proof.
  unfold is_infinity. rewrite FloatAxioms.eqb_spec, abs_spec.
  change (Prim2SF infinity) with (S754_infinity false).
  now destruct (Prim2SF x) as [s|s| |s m e].
Qed.

Lemma is_finite_spec (x : float) : is_finite x = SFfinite (Prim2SF x).
Proof.
  unfold is_finite. rewrite is_nan_spec, is_infinity_spec.
  now destruct (Prim2SF x).
Qed.

Lemma get_sign_spec (x : float) : get_sign x = SFsign (Prim2SF x).
Proof.
  unfold get_sign. rewrite is_zero_spec.
  destruct (Prim2SF x) as [s|s| |s m e] eqn:Ex; cbv zeta;
    rewrite ltb_spec; change (Prim2SF zero) with (S754_zero false).
  - rewrite div_spec, Ex. change (Prim2SF one) with (S754_finite false 4503599627370496 (-52)).
    now destruct s.
  - rewrite Ex. now destruct s.
  - now rewrite Ex.
  - rewrite Ex. now destruct s.
Qed.

Lemma nonNegative_spec (x : float) : nonNegative x = SFnonneg (Prim2SF x).
Proof.
  unfold nonNegative. rewrite leb_spec.
  change (Prim2SF 0) with (S754_zero false).
  destruct (Prim2SF x) as [s|s| |s m e]; try reflexivity; now destruct s.
Qed.

Lemma finiteNonNegative_spec (x : float) :
  finiteNonNegative x = SFfinite (Prim2SF x) && SFnonneg (Prim2SF x).
Proof.
  unfold finiteNonNegative. fold (nonNegative x).
  now rewrite is_finite_spec, nonNegative_spec.
Qed.

Lemma isAmount_spec (x : float) :
  isAmount x = SFfinite (Prim2SF x) && negb (SFsign (Prim2SF x)).
Proof. unfold isAmount. now rewrite is_finite_spec, get_sign_spec. Qed.

Lemma Prim2SF_100 : Prim2SF 100 = c100.
Proof. reflexivity. Qed.

(** [0 * k] is [+0] for a finite [k] with a clear sign. *)
Lemma mul_zero_amount (k : float) : isAmount k = true → 0 * k = 0.
Proof.
  rewrite isAmount_spec. intros Hk. apply Prim2SF_inj.
  rewrite mul_spec. change (Prim2SF 0) with (S754_zero false).
  destruct (Prim2SF k) as [s|s| |s m e]; try discriminate;
    simpl in Hk; destruct s; try discriminate; reflexivity.
Qed.

(** [0 * k] is a zero for a finite [k]. *)
Lemma mul_zero_finite (k : float) : is_finite k = true → is_zero (0 * k) = true.
Proof.
  rewrite is_finite_spec, is_zero_spec, mul_spec.
  change (Prim2SF 0) with (S754_zero false).
  now destruct (Prim2SF k) as [s|s| |s m e].
Qed.

Lemma div_100_finite (g : float) : is_finite g = true → is_finite (g / 100) = true.
Proof.
  rewrite !is_finite_spec, div_spec, Prim2SF_100. intros Hf.
  now destruct (SFdiv_100 (Prim2SF g) (Prim2SF_valid g) Hf) as (Hf' & _).
Qed.

(** Grams to scale: dividing by 100 keeps a number finite and keeps its
    sign. *)
Lemma div_100_amount (g : float) : isAmount g = true → isAmount (g / 100) = true.
Proof.
  rewrite !isAmount_spec, div_spec, Prim2SF_100. intros Hg.
  apply andb_prop in Hg as [Hf Hs].
  destruct (SFdiv_100 (Prim2SF g) (Prim2SF_valid g) Hf) as (Hf' & Hs' & _).
  now rewrite Hf', Hs'.
Qed.

Lemma div_100_finiteNonNegative (g : float) :
  finiteNonNegative g = true → finiteNonNegative (g / 100) = true.
Proof.
  rewrite !finiteNonNegative_spec, div_spec, Prim2SF_100. intros Hg.
  apply andb_prop in Hg as [Hf Hn].
  destruct (SFdiv_100 (Prim2SF g) (Prim2SF_valid g) Hf) as (Hf' & _ & Hn').
  now rewrite Hf', Hn'.
Qed.

Lemma mul_nonNegative (a b : float) :
  finiteNonNegative a = true → finiteNonNegative b = true →
  nonNegative (a * b) = true.
Proof.
  rewrite !finiteNonNegative_spec, nonNegative_spec, mul_spec.
  intros Ha Hb. apply andb_prop in Ha as [? ?], Hb as [? ?].
  now apply SFmul_nonneg.
Qed.

Lemma add_nonNegative (a b : float) :
  nonNegative a = true → nonNegative b = true → nonNegative (a + b) = true.
Proof. rewrite !nonNegative_spec, add_spec. apply SFadd_nonneg. Qed.

(** [v || 0] keeps a finite non-negative number finite and non-negative. *)
Lemma or_else_finiteNonNegative (v : float) :
  finiteNonNegative v = true → finiteNonNegative (or_else v 0) = true.
Proof. intros Hv. unfold or_else. now destruct (truthy v). Qed.

(** [v || 0] is [v] unless [v] is [NaN] or a zero, and [+0] is read as
    itself. *)
Lemma or_else_clear (v : float) : hasClearSign v = true → or_else v 0 = v.
Proof.
  unfold hasClearSign. rewrite is_nan_spec, get_sign_spec. intros Hv.
  unfold or_else, truthy.
  destruct (is_nan v || is_zero v) eqn:E; [|reflexivity]. simpl.
  rewrite is_nan_spec, is_zero_spec in E. apply Prim2SF_inj.
  change (Prim2SF 0) with (S754_zero false).
  destruct (Prim2SF v) as [s|s| |s m e]; try discriminate.
  simpl in Hv. now destruct s.
Qed.

(** A finite number divided by a finite number other than zero is not
    [NaN]. *)
Lemma div_defined (n d : float) :
  is_finite n = true → is_finite d = true → is_zero d = false →
  is_nan (n / d) = false.
Proof.
  rewrite !is_finite_spec, is_zero_spec, is_nan_spec, div_spec.
  intros Hn Hd Hz.
  pose proof (SFdiv_defined (Prim2SF n) (Prim2SF d) Hn) as Hq.
  destruct (Prim2SF d) as [s|s| |s m e]; try discriminate.
  destruct (SF64div (Prim2SF n) (S754_finite s m e)); try reflexivity.
  exfalso. apply Hq; eauto.
Qed.

End Binary64.

(** * Linear scaling *)

Section Scaling.

Import Binary64.

Lemma visitNutrient_scale (k : float) (p : NutrientProfile) (n : Nutrient) :
  visitNutrient (scaleProfile k p) (scaleNutrient k n)
  = scaleProfile k (visitNutrient p n).
Proof.
  unfold visitNutrient. simpl nutrientName.
  repeat (destruct (String.eqb _ _); [reflexivity|]). reflexivity.
Qed.

Lemma sameNumber_refl (x : float) : sameNumber x x.
Proof. now left. Qed.

(** One more entry keeps two profiles equal as numbers when it sets the same
    value in both. *)
Lemma visitNutrient_same (p q : NutrientProfile) (n m : Nutrient) :
  n.(nutrientName) = m.(nutrientName) → n.(value) = m.(value) →
  sameProfile p q → sameProfile (visitNutrient p n) (visitNutrient q m).
Proof.
  intros Hname Hvalue (Hc & Hp & Hb & Hf). unfold visitNutrient.
  rewrite Hname, Hvalue.
  repeat (destruct (String.eqb _ _);
          [repeat split; simpl; auto using sameNumber_refl|]).
  now repeat split.
Qed.

(** Extracting from the scaled record and scaling the extracted profile run
    the same scan from two starting points, all zeros and all [0 * k]. *)
Lemma extract_scale_from (k : float) (l : list Nutrient) :
  fold_left visitNutrient (map (scaleNutrient k) l) (scaleProfile k noNutrients)
  = scaleProfile k (fold_left visitNutrient l noNutrients).
Proof.
  induction l as [|n l IH] using rev_ind; [reflexivity|].
  rewrite map_app, !fold_left_app. simpl. rewrite IH.
  apply visitNutrient_scale.
Qed.

(** Extraction commutes with scaling by a finite factor, up to the sign of a
    zero. *)
Lemma extract_scale_same (k : float) (foodItem : FoodItem) :
  is_finite k = true →
  sameProfile (extractNutrients (scaleItem k foodItem))
              (scaleProfile k (extractNutrients foodItem)).
Proof.
  intros Hk. destruct foodItem as [l].
  unfold extractNutrients, scaleItem; simpl.
  rewrite <- extract_scale_from.
  assert (Hstart : sameProfile noNutrients (scaleProfile k noNutrients)).
  { unfold sameProfile, scaleProfile, noNutrients; simpl.
    repeat split; right; auto using mul_zero_finite. }
  revert Hstart. generalize noNutrients at 1 3. generalize (scaleProfile k noNutrients).
  induction l as [|n l IH]; intros q p Hpq; [assumption|].
  simpl. apply IH. now apply visitNutrient_same.
Qed.

(** Extraction commutes with scaling by a finite factor of clear sign. *)
Lemma extract_scale (k : float) (foodItem : FoodItem) :
  isAmount k = true →
  extractNutrients (scaleItem k foodItem)
  = scaleProfile k (extractNutrients foodItem).
Proof.
  intros Hk. destruct foodItem as [l].
  unfold extractNutrients, scaleItem; simpl.
  rewrite <- extract_scale_from. f_equal.
  unfold scaleProfile, noNutrients; simpl.
  now rewrite (mul_zero_amount k Hk).
Qed.

(** Every field of an extracted profile has a clear sign when the record's
    values have. *)
Lemma extract_clear (foodItem : FoodItem) :
  allValues hasClearSign foodItem = true →
  let p := extractNutrients foodItem in
  hasClearSign p.(calories) = true ∧ hasClearSign p.(protein) = true
  ∧ hasClearSign p.(carbs) = true ∧ hasClearSign p.(fat) = true.
Proof.
  destruct foodItem as [l]. unfold allValues; simpl.
  induction l as [|n l IH] using rev_ind; intros Hl.
  - repeat split.
  - rewrite forallb_app in Hl. apply andb_prop in Hl as [Hl Hn].
    simpl in Hn. rewrite andb_true_r in Hn.
    rewrite extractNutrients_snoc.
    destruct (IH Hl) as (Hc & Hp & Hb & Hf).
    unfold visitNutrient.
    repeat (destruct (String.eqb _ _); [simpl; auto|]). auto.
Qed.

(** C1, as amended: for a record whose values are numbers of clear sign.
    The direct lookup shows, to one decimal, each extracted value times the
    quantity over 100.  An ingredient whose lookup returns the record adds
    to each total the extracted value times the estimated grams over 100.
    For every finite factor [k], extracting from the record with its values
    multiplied by [k] gives the same numbers as multiplying the extracted
    values by [k], identically so when [k] has a clear sign; a finite gram
    value over 100 is such a factor. *)
Theorem scaling_linear (foodItem : FoodItem)
    (Hvalues : allValues hasClearSign foodItem = true) :
  let nutrients := extractNutrients foodItem in
  (∀ (quantity : float) (doc : Document),
     let shown := displayNutrients nutrients quantity doc in
     let scaled := scaleProfile (quantity / 100) nutrients in
     shown !! "calories" = Some (toFixed scaled.(calories) 1)
     ∧ shown !! "protein" = Some (toFixed scaled.(protein) 1)
     ∧ shown !! "carbs" = Some (toFixed scaled.(carbs) 1)
     ∧ shown !! "fat" = Some (toFixed scaled.(fat) 1))
  ∧ (∀ (respond : nat -> string -> Response) (meal : Meal) (i : nat) st,
       isBlank (prop meal (ingredientKey i)) = false →
       firstRecord (respond i (toText (prop meal (ingredientKey i)))) = Some foodItem →
       fst (ingredientStep respond meal st i)
       = addProfile (fst st)
           (scaleProfile (estimateGramsFromMeasure (prop meal (measureKey i)) / 100)
              nutrients))
  ∧ (∀ k : float,
       is_finite k = true →
       sameProfile (extractNutrients (scaleItem k foodItem)) (scaleProfile k nutrients))
  ∧ (∀ k : float,
       isAmount k = true →
       extractNutrients (scaleItem k foodItem) = scaleProfile k nutrients)
  ∧ (∀ grams : float,
       (is_finite grams = true → is_finite (grams / 100) = true)
       ∧ (isAmount grams = true → isAmount (grams / 100) = true)).
Proof.
  intros nutrients. split; [|split; [|split; [|split]]].
  - intros quantity doc. unfold displayNutrients, setText. cbv zeta.
    repeat split.
    + now rewrite !lookup_insert_ne, lookup_insert_eq by discriminate.
    + now rewrite !lookup_insert_ne, lookup_insert_eq by discriminate.
    + now rewrite !lookup_insert_ne, lookup_insert_eq by discriminate.
    + now rewrite lookup_insert_eq.
  - intros respond meal i st Hb Hr.
    rewrite ingredientStep_totals. unfold slotContribution.
    rewrite Hb, Hr. simpl. fold nutrients.
    destruct (extract_clear foodItem Hvalues) as (Hc & Hp & Hcb & Hf).
    fold nutrients in Hc, Hp, Hcb, Hf.
    unfold addScaled, addProfile, scaleProfile; simpl.
    now rewrite !or_else_clear.
  - intros k Hk. now apply extract_scale_same.
  - intros k Hk. now apply extract_scale.
  - intros grams. split; [apply div_100_finite|apply div_100_amount].
Qed.

End Scaling.

(** Linearity at the record for apple and the factor of 150 grams. *)
Lemma scaling_linear_witness :
  extractNutrients (scaleItem (150 / 100) apple)
  = scaleProfile (150 / 100) (extractNutrients apple).
Proof.
  exact (proj1 (proj2 (proj2 (proj2 (scaling_linear apple eq_refl))))
           (150 / 100) eq_refl).
Defined.

(** C1, as stated, fails: the scale of the measure "1/0 cup" is
    [+Infinity]; for the record of water, which has no protein entry,
    multiplying its values by that scale and extracting gives protein 0,
    while extracting and multiplying gives [NaN]. *)
Lemma infinite_scale_not_linear :
  estimateGramsFromMeasure (Str "1/0 cup") / 100 = infinity
  ∧ (extractNutrients (scaleItem infinity water)).(protein) = 0
  ∧ (scaleProfile infinity (extractNutrients water)).(protein) = nan
  ∧ extractNutrients (scaleItem infinity water)
    ≠ scaleProfile infinity (extractNutrients water).
Proof.
  repeat split; try (vm_compute; reflexivity).
  intros H. apply (f_equal protein) in H. revert H. float_discriminate.
Qed.

(** * Non-negative totals *)

Section NonNegative.

Import Binary64.

Variable respond : nat -> string -> Response.

Lemma extract_finiteNonNegative (foodItem : FoodItem) :
  allValues finiteNonNegative foodItem = true →
  let p := extractNutrients foodItem in
  finiteNonNegative p.(calories) = true ∧ finiteNonNegative p.(protein) = true
  ∧ finiteNonNegative p.(carbs) = true ∧ finiteNonNegative p.(fat) = true.
Proof.
  destruct foodItem as [l]. unfold allValues; simpl.
  induction l as [|n l IH] using rev_ind; intros Hl.
  - repeat split.
  - rewrite forallb_app in Hl. apply andb_prop in Hl as [Hl Hn].
    simpl in Hn. rewrite andb_true_r in Hn.
    rewrite extractNutrients_snoc.
    destruct (IH Hl) as (Hc & Hp & Hb & Hf).
    unfold visitNutrient.
    repeat (destruct (String.eqb _ _); [simpl; auto|]). auto.
Qed.

(** Adding a contribution of finite non-negative values at a finite
    non-negative scale keeps the four totals non-negative. *)
Lemma addScaled_nonNegative (totals nutrients : NutrientProfile) (scale : float) :
  profileNonNegative totals = true →
  finiteNonNegative nutrients.(calories) = true →
  finiteNonNegative nutrients.(protein) = true →
  finiteNonNegative nutrients.(carbs) = true →
  finiteNonNegative nutrients.(fat) = true →
  finiteNonNegative scale = true →
  profileNonNegative (addScaled totals nutrients scale) = true.
Proof.
  unfold profileNonNegative. intros Ht Hc Hp Hb Hf Hs.
  apply andb_prop in Ht as [Ht Htf]. apply andb_prop in Ht as [Ht Htb].
  apply andb_prop in Ht as [Htc Htp].
  unfold addScaled; simpl.
  rewrite !add_nonNegative; auto using mul_nonNegative, or_else_finiteNonNegative.
Qed.

Lemma ingredientStep_nonNegative (meal : Meal) (st : MealTotals * list Event) (i : nat) :
  slotWithin respond finiteNonNegative meal i = true →
  profileNonNegative (fst st) = true →
  profileNonNegative (fst (ingredientStep respond meal st i)) = true.
Proof.
  unfold slotWithin. intros Hslot Hst.
  rewrite ingredientStep_totals. unfold slotContribution.
  destruct (isBlank _); [assumption|]. simpl in Hslot.
  destruct (firstRecord _) as [foodItem|]; [|assumption]. simpl.
  apply andb_prop in Hslot as [Hv Hg].
  destruct (extract_finiteNonNegative foodItem Hv) as (Hc & Hp & Hb & Hf).
  apply addScaled_nonNegative; auto using div_100_finiteNonNegative.
Qed.

(** C10, as amended: when every value of every fetched record and every
    estimated gram value is finite and non-negative, the four totals are
    non-negative after each of the 20 iterations, and so at the end. *)
Theorem totals_nonNegative (meal : Meal)
    (Hslots : ∀ i, (1 ≤ i ≤ maxNumIngredients)%nat →
                   slotWithin respond finiteNonNegative meal i = true) :
  (∀ n, (n ≤ maxNumIngredients)%nat →
        profileNonNegative
          (fst (fold_left (ingredientStep respond meal) (seq 1 n) (noNutrients, [])))
        = true)
  ∧ profileNonNegative (fst (mealLoop respond meal)) = true.
Proof.
  assert (Hn : ∀ n, (n ≤ maxNumIngredients)%nat →
                    profileNonNegative
                      (fst (fold_left (ingredientStep respond meal) (seq 1 n)
                              (noNutrients, []))) = true).
  { induction n as [|n IH]; intros Hle; [reflexivity|].
    rewrite seq_S, fold_left_app. cbn [fold_left].
    apply ingredientStep_nonNegative; [apply Hslots; lia|apply IH; lia]. }
  split; [exact Hn|]. apply Hn. lia.
Qed.

End NonNegative.

Lemma slots_checked (respond : nat -> string -> Response) (P : float -> bool)
    (meal : Meal) :
  forallb (slotWithin respond P meal) (seq 1 maxNumIngredients) = true →
  ∀ i, (1 ≤ i ≤ maxNumIngredients)%nat → slotWithin respond P meal i = true.
Proof.
  intros Hall i Hi. rewrite forallb_forall in Hall. apply Hall.
  apply in_seq. lia.
Qed.

(** Non-negative totals for a meal of three ingredients and two blank slots. *)
Lemma totals_nonNegative_witness :
  profileNonNegative (fst (mealLoop applesOnly saladMeal)) = true.
Proof.
  refine (proj2 (totals_nonNegative applesOnly saladMeal _)).
  apply slots_checked. vm_compute. reflexivity.
Defined.

(** C10, as stated, fails twice.  For the record of water and the measure
    "1/0 cup" the only value is 0 and the estimated gram value is
    [+Infinity]; for the overflowing record and the measure "0 cup" the
    only value is [+Infinity] and the estimated gram value is 0.  All of
    these are non-negative, and in both runs the calories total is [NaN]. *)
Lemma infinite_grams_break_totals :
  forallb (slotWithin waterOnly nonNegative wateryMeal) (seq 1 maxNumIngredients) = true
  ∧ estimateGramsFromMeasure (prop wateryMeal (measureKey 1)) = infinity
  ∧ (fst (mealLoop waterOnly wateryMeal)).(calories) = nan
  ∧ profileNonNegative (fst (mealLoop waterOnly wateryMeal)) = false
  ∧ forallb (slotWithin overflowingOnly nonNegative emptyCupMeal)
      (seq 1 maxNumIngredients) = true
  ∧ (extractNutrients overflowing).(calories) = infinity
  ∧ (fst (mealLoop overflowingOnly emptyCupMeal)).(calories) = nan
  ∧ profileNonNegative (fst (mealLoop overflowingOnly emptyCupMeal)) = false.
Proof. repeat split; vm_compute; reflexivity. Qed.

(** * Fractions and units *)

Section Quantity.

Import Binary64.

(** A text that contains the separator splits into at least two parts, and
    the first part is free of it. *)
Lemma split_includes (c : ascii) (s : string) :
  includes c s = true →
  ∃ first second more,
    split c s = first :: second :: more ∧ includes c first = false.
Proof.
  unfold split. induction s as [|d s IH]; [discriminate|]. simpl. intros H.
  destruct (splitParts c s) as [p ps].
  destruct (Ascii.eqb c d) eqn:Ecd.
  - now exists EmptyString, p, ps.
  - simpl in H. destruct (IH H) as (a & b & more & [= -> ->] & Ha).
    exists (String d a), b, more. split; [reflexivity|].
    simpl. now rewrite Ecd.
Qed.

(** C6: for a measure that matches, with quantity token [quantity] and unit
    token [unit], the result is the parsed quantity times the grams per
    unit.  A quantity token with a slash is split at the slashes; its first
    two parts are parsed and the first is divided by the second, and when
    both are finite and the second is not zero the quotient is a number.
    A token without a slash is parsed as a decimal.  Nothing guards a zero
    denominator: "1/0 cup" gives [+Infinity] and "0/0 cup" gives [NaN]. *)
Theorem fraction_quantity (measure quantity unit : string)
    (Hmatch : matchMeasure (toLowerCase (trim measure)) = Some (quantity, unit)) :
  estimateGramsFromMeasure (Str measure) = parseQuantity quantity * gramsPerUnit unit
  ∧ (includes "/" quantity = true →
     ∃ numerator denominator more,
       split "/" quantity = numerator :: denominator :: more
       ∧ includes "/" numerator = false
       ∧ parseQuantity quantity = parseFloat numerator / parseFloat denominator
       ∧ (is_finite (parseFloat numerator) = true →
          is_finite (parseFloat denominator) = true →
          is_zero (parseFloat denominator) = false →
          is_nan (parseQuantity quantity) = false))
  ∧ (includes "/" quantity = false → parseQuantity quantity = parseFloat quantity)
  ∧ parseFloat "0" = 0
  ∧ estimateGramsFromMeasure (Str "1/0 cup") = infinity
  ∧ estimateGramsFromMeasure (Str "0/0 cup") = nan.
Proof.
  split; [now apply estimate_matched|].
  split; [|split; [|repeat split; vm_compute; reflexivity]].
  - intros Hs. destruct (split_includes "/" quantity Hs) as (a & b & more & Hsplit & Ha).
    exists a, b, more. unfold parseQuantity. rewrite Hs, Hsplit. simpl.
    repeat split; try assumption. apply div_defined.
  - intros Hs. unfold parseQuantity. now rewrite Hs.
Qed.

Lemma tableLookup_own (unit : string) (x : float) :
  measureToGrams !! unit = Some x → gramsPerUnit unit = x.
Proof.
  intros Hx. unfold gramsPerUnit, tableLookup. rewrite Hx.
  apply elem_of_list_to_map_2 in Hx.
  repeat (apply elem_of_cons in Hx as [Hx|Hx]; [injection Hx as -> ->; reflexivity|]).
  inversion Hx.
Qed.

(** The grams per unit, unit by unit: the table's number for one of its
    sixteen keys, 100 for a unit that is neither a key nor a name found on
    the prototype, and [NaN] for a name found on the prototype. *)
Lemma gramsPerUnit_cases (unit : string) :
  match measureToGrams !! unit with
  | Some x => gramsPerUnit unit = x
  | None =>
      (unit ∉ Object_prototype → gramsPerUnit unit = 100)
      ∧ (unit ∈ Object_prototype → gramsPerUnit unit = nan)
  end.
Proof.
  destruct (measureToGrams !! unit) as [x|] eqn:Ex; [now apply tableLookup_own|].
  unfold gramsPerUnit, tableLookup. rewrite Ex.
  split; intros Hu.
  - now rewrite bool_decide_eq_false_2.
  - now rewrite bool_decide_eq_true_2.
Qed.

(** Lower-casing leaves no capital letter, so a letter of the cleaned text is
    a lower-case one. *)
Lemma toLowerChar_alpha (c : ascii) :
  isAlpha (toLowerChar c) = true → isLowerAlpha (toLowerChar c) = true.
Proof. destruct c as [[] [] [] [] [] [] [] []]; vm_compute; congruence. Qed.

Lemma allChars_lower (s u a b : string) :
  toLowerCase s = (a ++ u ++ b)%string →
  allChars isAlpha u = true → allChars isLowerAlpha u = true.
Proof.
  revert s. induction a as [|c a IH]; intros s Hs Hu.
  - rewrite append_nil in Hs. revert s Hs Hu.
    induction u as [|c u IHu]; intros s Hs Hu; [reflexivity|].
    destruct s as [|d s]; [discriminate|].
    rewrite append_cons in Hs. simpl in Hs. injection Hs as Hc Hs.
    simpl in Hu |- *. apply andb_prop in Hu as [Hcu Hu].
    rewrite (IHu s Hs Hu), andb_true_r.
    subst c. now apply toLowerChar_alpha.
  - destruct s as [|d s]; [discriminate|].
    rewrite append_cons in Hs. simpl in Hs. injection Hs as _ Hs.
    now apply (IH s).
Qed.

(** The unit captured from a cleaned measure is made of lower-case
    letters. *)
Lemma matched_unit_lowercase (t quantity unit : string) :
  matchMeasure (toLowerCase t) = Some (quantity, unit) →
  allChars isLowerAlpha unit = true.
Proof.
  intros Hm. apply matchMeasure_sound in Hm.
  destruct Hm as (w & rest & Hs & _ & _ & _ & _ & Hu & _).
  rewrite <- append_assoc in Hs.
  now apply (allChars_lower t unit (quantity ++ w) rest).
Qed.

(** Among the names found on the prototype, only "constructor" is made of
    lower-case letters. *)
Lemma inherited_lowercase (unit : string) :
  unit ∈ Object_prototype → allChars isLowerAlpha unit = true →
  unit = "constructor".
Proof.
  unfold Object_prototype. intros Hin Hlow.
  repeat (apply elem_of_cons in Hin as [->|Hin];
          [first [reflexivity|discriminate Hlow]|]).
  inversion Hin.
Qed.

(** The grams per unit of a matching measure: the table's number when the
    unit is one of the sixteen keys, and otherwise 100 unless the unit is
    "constructor"; the result is the parsed quantity times that number,
    whatever its size. *)
Theorem unit_default (measure quantity unit : string) :
  matchMeasure (toLowerCase (trim measure)) = Some (quantity, unit) →
  estimateGramsFromMeasure (Str measure) = parseQuantity quantity * gramsPerUnit unit
  ∧ (∀ x, measureToGrams !! unit = Some x → gramsPerUnit unit = x)
  ∧ (measureToGrams !! unit = None → unit ≠ "constructor" → gramsPerUnit unit = 100).
Proof.
  intros Hm. split; [now apply estimate_matched|]. split.
  - apply tableLookup_own.
  - intros Hnone Hne.
    pose proof (gramsPerUnit_cases unit) as Hcases. rewrite Hnone in Hcases.
    apply Hcases. intros Hin. apply Hne.
    apply inherited_lowercase; [assumption|].
    now apply (matched_unit_lowercase (trim measure) quantity).
Qed.

End Quantity.

(** A unit that is not in the table. *)
Lemma unit_default_witness :
  estimateGramsFromMeasure (Str "2 handfuls") = parseQuantity "2" * gramsPerUnit "handfuls"
  ∧ gramsPerUnit "handfuls" = 100.
Proof.
  destruct (unit_default "2 handfuls" "2" "handfuls" eq_refl) as (H1 & _ & H3).
  split; [exact H1|]. apply H3; [reflexivity|discriminate].
Defined.

(** The fraction "1/2" of a cup. *)
Lemma fraction_quantity_witness :
  estimateGramsFromMeasure (Str "1/2 cup") = parseQuantity "1/2" * gramsPerUnit "cup".
Proof. exact (proj1 (fraction_quantity "1/2 cup" "1/2" "cup" eq_refl)). Defined.

(** C8, where the script departs from it: the unit "constructor" is not a
    key of the table, yet what the table yields for it is the function
    inherited from [Object.prototype], which is truthy, so the default of
    100 is not taken and the product is [NaN] instead of 2 * 100. *)
Theorem inherited_unit_not_defaulted :
  matchMeasure (toLowerCase (trim "2 constructor")) = Some ("2", "constructor")
  ∧ measureToGrams !! "constructor" = None
  ∧ tableLookup "constructor" = Inherited
  ∧ estimateGramsFromMeasure (Str "2 constructor") = nan
  ∧ parseQuantity "2" * 100 = 200.
Proof. repeat split; vm_compute; reflexivity. Qed.

(** * The direct lookup, end to end *)

Section DirectLookup.

Variable respond : nat -> string -> Response.

Lemma fetchNutritionData_firstRecord (foodName : string) :
  fetchNutritionData respond foodName = firstRecord (respond 0%nat foodName).
Proof.
  unfold fetchNutritionData, firstRecord.
  now destruct (respond 0%nat foodName) as [|[[|foodItem more]|]].
Qed.

(** C9, as amended: when the first record for "apple" carries Energy 52,
    Protein 0.3, Carbohydrate 14 and fat 0.2 and the quantity field holds
    150, the page shows calories 78.0, protein 0.4, carbs 21.0 and fat 0.3:
    each product is shown to one decimal, and 0.3 * 1.5 is
    0.44999999999999996 in binary64. *)
Theorem apple_lookup_displayed (doc : Document)
    (Hfound : firstRecord (respond 0%nat "apple") = Some apple) :
  let shown := fst (calculate respond "apple" "150" doc) in
  shown !! "calories" = Some "78.0"
  ∧ shown !! "protein" = Some "0.4"
  ∧ shown !! "carbs" = Some "21.0"
  ∧ shown !! "fat" = Some "0.3"
  ∧ snd (calculate respond "apple" "150" doc) = [Requested "apple"].
Proof.
  unfold calculate.
  change (trim "apple") with "apple".
  replace (parseFloat "150") with 150%float by (vm_compute; reflexivity).
  change (isEmpty "apple" || isNaN 150 || (150 <=? 0)%float) with false.
  cbv iota. rewrite fetchNutritionData_firstRecord, Hfound. cbn [fst snd].
  unfold displayNutrients, setText.
  repeat split.
  - rewrite !lookup_insert_ne, lookup_insert_eq by discriminate.
    vm_compute. reflexivity.
  - rewrite !lookup_insert_ne, lookup_insert_eq by discriminate.
    vm_compute. reflexivity.
  - rewrite !lookup_insert_ne, lookup_insert_eq by discriminate.
    vm_compute. reflexivity.
  - rewrite lookup_insert_eq. vm_compute. reflexivity.
Qed.


End DirectLookup.

(** The protein shown by a provider that knows apples. *)
Lemma apple_lookup_displayed_witness :
  fst (calculate applesOnly "apple" "150" ∅) !! "protein" = Some "0.4".
Proof.
  exact (proj1 (proj2 (apple_lookup_displayed applesOnly ∅ eq_refl))).
Defined.

(** C9, as stated, fails: the protein shown is "0.4", not 0.45. *)
Lemma apple_protein_not_shown_exactly :
  parseFloat "0.3" * (parseFloat "150" / 100) = 0x1.cccccccccccccp-2
  ∧ toFixed 0x1.cccccccccccccp-2 1 = "0.4"
  ∧ fst (calculate applesOnly "apple" "150" ∅) !! "protein" = Some "0.4"
  ∧ fst (calculate applesOnly "apple" "150" ∅) !! "protein" ≠ Some "0.45".
Proof.
  repeat split; try (vm_compute; reflexivity).
  vm_compute. discriminate.
Qed.

(** * What the aggregation loop sends *)

Section AggregatorEffects.

Variable respond : nat -> string -> Response.

Implicit Types (meal : Meal) (doc : Document).

(** The events of one iteration are appended to those before it. *)
Lemma ingredientStep_events meal st i :
  snd (ingredientStep respond meal st i)
  = (snd st
     ++ if isBlank (prop meal (ingredientKey i)) then []
        else if isThrow (respond i (slotQuery meal i))
             then [Requested (slotQuery meal i); Warned (slotQuery meal i)]
             else [Requested (slotQuery meal i)])%list.
Proof.
  unfold ingredientStep, slotQuery. destruct st as [totals events].
  fold (ingredientKey i).
  destruct (isBlank _); [now rewrite app_nil_r|].
  destruct (respond i _) as [|[[|foodItem rest]|]]; reflexivity.
Qed.

Lemma loop_requests meal (slots : list nat) st :
  requestsOf (snd (fold_left (ingredientStep respond meal) slots st))
  = (requestsOf (snd st)
     ++ (slotQuery meal
           <$> filter (λ i, isBlank (prop meal (ingredientKey i)) = false) slots))%list.
Proof.
  revert st. induction slots as [|i slots IH]; intros st.
  - simpl. now rewrite app_nil_r.
  - cbn [fold_left]. rewrite IH, ingredientStep_events. unfold requestsOf.
    rewrite omap_app, <- app_assoc. f_equal.
    rewrite filter_cons.
    destruct (isBlank (prop meal (ingredientKey i))) eqn:Hb.
    + rewrite decide_False by congruence. reflexivity.
    + rewrite decide_True by reflexivity.
      now destruct (isThrow _).
Qed.

Lemma loop_warnings meal (slots : list nat) st :
  warningsOf (snd (fold_left (ingredientStep respond meal) slots st))
  = (warningsOf (snd st)
     ++ (slotQuery meal
           <$> filter (λ i, isThrow (respond i (slotQuery meal i)) = true)
                 (filter (λ i, isBlank (prop meal (ingredientKey i)) = false) slots)))%list.
Proof.
  revert st. induction slots as [|i slots IH]; intros st.
  - simpl. now rewrite app_nil_r.
  - cbn [fold_left]. rewrite IH, ingredientStep_events. unfold warningsOf.
    rewrite omap_app, <- app_assoc. f_equal.
    rewrite (filter_cons _ i slots).
    destruct (isBlank (prop meal (ingredientKey i))) eqn:Hb.
    + rewrite decide_False by congruence. reflexivity.
    + rewrite decide_True by reflexivity. rewrite filter_cons.
      destruct (isThrow _) eqn:Ht.
      * now rewrite decide_True by reflexivity.
      * now rewrite decide_False by congruence.
Qed.

Lemma loop_event_count meal (slots : list nat) st :
  length (snd (fold_left (ingredientStep respond meal) slots st))
  = (length (snd st)
     + length (requestsOf (snd (fold_left (ingredientStep respond meal) slots st)))
     - length (requestsOf (snd st))
     + length (warningsOf (snd (fold_left (ingredientStep respond meal) slots st)))
     - length (warningsOf (snd st)))%nat.
Proof.
  revert st. induction slots as [|i slots IH]; intros st; [simpl; lia|].
  cbn [fold_left]. rewrite IH. clear IH.
  rewrite loop_requests, loop_warnings.
  rewrite ingredientStep_events. unfold requestsOf, warningsOf.
  rewrite !omap_app, !length_app.
  destruct (isBlank _); [simpl; lia|].
  destruct (isThrow _); simpl; lia.
Qed.

(** The aggregation loop sends one request for each slot that is not blank,
    in slot order and with the ingredient as it stands in the meal, so at
    most 20; it warns once for each of these whose request throws; and it
    leaves no other event. *)
Theorem aggregator_requests (meal : Meal) :
  let events := snd (mealLoop respond meal) in
  requestsOf events = slotQuery meal <$> filledSlots meal
  ∧ warningsOf events
    = slotQuery meal
        <$> filter (λ i, isThrow (respond i (slotQuery meal i)) = true) (filledSlots meal)
  ∧ (length (requestsOf events) ≤ maxNumIngredients)%nat
  ∧ length events = (length (requestsOf events) + length (warningsOf events))%nat.
Proof.
  cbv zeta. unfold mealLoop, filledSlots.
  split; [|split; [|split]].
  - now rewrite loop_requests.
  - now rewrite loop_warnings.
  - rewrite loop_requests. simpl requestsOf. rewrite app_nil_l, length_fmap.
    etransitivity; [apply length_filter|]. now rewrite length_seq.
  - rewrite loop_event_count.
    change (snd (noNutrients, @nil Event)) with (@nil Event).
    change (requestsOf []) with (@nil string).
    change (warningsOf []) with (@nil string).
    cbn [length]. lia.
Qed.

End AggregatorEffects.

(** * What the aggregation writes on the page *)

Section PageEffects.

Implicit Types (meal : Meal) (doc : Document) (respond : nat -> string -> Response).

(** The four assignments that end [estimateMealNutrition]. *)
Lemma estimateMealNutrition_writes respond meal doc :
  fst (estimateMealNutrition respond meal doc)
  = <["meal-fat-" +:+ toText (prop meal "idMeal")
        := toFixed (fst (mealLoop respond meal)).(fat) 1]>
      (<["meal-carbs-" +:+ toText (prop meal "idMeal")
           := toFixed (fst (mealLoop respond meal)).(carbs) 1]>
         (<["meal-protein-" +:+ toText (prop meal "idMeal")
              := toFixed (fst (mealLoop respond meal)).(protein) 1]>
            (<["meal-calories-" +:+ toText (prop meal "idMeal")
                 := toFixed (fst (mealLoop respond meal)).(calories) 0 +:+ " kcal"]>
               doc))).
Proof.
  unfold estimateMealNutrition, setText.
  now destruct (mealLoop respond meal) as [totals events].
Qed.

(** Elements that are not among the meal's four spans keep their text. *)
Lemma estimateMealNutrition_other respond meal doc (k : string) :
  k ∉ mealSpans meal →
  fst (estimateMealNutrition respond meal doc) !! k = doc !! k.
Proof.
  unfold mealSpans. intros Hk. rewrite estimateMealNutrition_writes.
  rewrite !not_elem_of_cons in Hk. destruct Hk as (H1 & H2 & H3 & H4 & _).
  now rewrite !lookup_insert_ne by congruence.
Qed.

(** The text of one of the meal's spans does not depend on the page. *)
Lemma estimateMealNutrition_span respond meal doc doc' (k : string) :
  k ∈ mealSpans meal →
  fst (estimateMealNutrition respond meal doc) !! k
  = fst (estimateMealNutrition respond meal doc') !! k.
Proof.
  unfold mealSpans. intros Hk. rewrite !estimateMealNutrition_writes.
  rewrite !elem_of_cons in Hk.
  destruct Hk as [->|[->|[->|[->|Hk]]]]; [| | | |inversion Hk];
    now repeat (first [rewrite lookup_insert_eq
                      |rewrite lookup_insert_ne by discriminate]).
Qed.

(** Meals with different ids have no span in common. *)
Lemma spans_disjoint meal meal' (k : string) :
  toText (prop meal "idMeal") ≠ toText (prop meal' "idMeal") →
  k ∈ mealSpans meal → k ∉ mealSpans meal'.
Proof.
  unfold mealSpans. intros Hid Hk Hk'.
  rewrite !elem_of_cons in Hk, Hk'.
  destruct Hk as [->|[->|[->|[->|Hk]]]]; [| | | |inversion Hk];
    destruct Hk' as [Hk'|[Hk'|[Hk'|[Hk'|Hk']]]];
    try discriminate Hk'; try (inversion Hk'; fail);
    apply Hid; simpl in Hk'; now injection Hk'.
Qed.

(** Two aggregations with different ids may end in either order. *)
Lemma aggregations_commute respond respond' meal meal' doc :
  toText (prop meal "idMeal") ≠ toText (prop meal' "idMeal") →
  fst (estimateMealNutrition respond meal
         (fst (estimateMealNutrition respond' meal' doc)))
  = fst (estimateMealNutrition respond' meal'
           (fst (estimateMealNutrition respond meal doc))).
Proof.
  intros Hid. apply map_eq. intros k.
  destruct (decide (k ∈ mealSpans meal)) as [Hk|Hk].
  - rewrite (estimateMealNutrition_span respond meal _ doc k Hk).
    rewrite (estimateMealNutrition_other respond' meal' _ k); [reflexivity|].
    now apply (spans_disjoint meal meal').
  - rewrite (estimateMealNutrition_other respond meal _ k Hk).
    destruct (decide (k ∈ mealSpans meal')) as [Hk'|Hk'].
    + apply (estimateMealNutrition_span respond' meal' _ _ k Hk').
    + rewrite !(estimateMealNutrition_other respond' meal' _ k Hk').
      now rewrite (estimateMealNutrition_other respond meal _ k Hk).
Qed.

Lemma fold_left_step {A B : Type} (f : A → B → A) (x : B) (l : list B) (a : A) :
  fold_left f (x :: l) a = fold_left f l (f a x).
Proof. reflexivity. Qed.

Lemma settle_cons (respondFor : nat -> nat -> string -> Response)
    (jm : nat * Meal) (finished : list (nat * Meal)) doc :
  settle respondFor (jm :: finished) doc
  = settle respondFor finished (fst (estimateMealNutrition (respondFor jm.1) jm.2 doc)).
Proof. unfold settle. now rewrite fold_left_step. Qed.

(** The aggregations started for a list of meals are not awaited, so they
    may end in any order; when the meals have pairwise different ids the
    page they leave is the same whatever that order. *)
Theorem completion_order_irrelevant (respondFor : nat -> nat -> string -> Response)
    (finished finished' : list (nat * Meal)) (doc : Document)
    (Hperm : finished ≡ₚ finished')
    (Hids : NoDup ((λ jm : nat * Meal, toText (prop jm.2 "idMeal")) <$> finished)) :
  settle respondFor finished doc = settle respondFor finished' doc.
Proof.
  revert doc Hids.
  induction Hperm as [|jm l l' Hperm IH|jm jm' l|l l' l'' H1 IH1 H2 IH2]; intros doc Hids.
  - reflexivity.
  - rewrite !settle_cons. apply IH.
    rewrite fmap_cons in Hids. now apply NoDup_cons in Hids as [_ Hids].
  - rewrite !settle_cons. f_equal.
    rewrite !fmap_cons in Hids.
    apply NoDup_cons in Hids as [Hne _].
    apply aggregations_commute. intros Heq. apply Hne.
    rewrite Heq. apply elem_of_cons. now left.
  - rewrite IH1 by assumption. apply IH2. now rewrite <- H1.
Qed.

End PageEffects.

(** Two aggregations, ending in the order started or in the other. *)
Lemma completion_order_irrelevant_witness :
  settle (λ _, applesOnly) [(0%nat, saladMeal); (1%nat, pieMeal)] ∅
  = settle (λ _, applesOnly) [(1%nat, pieMeal); (0%nat, saladMeal)] ∅.
Proof.
  apply completion_order_irrelevant.
  - apply perm_swap.
  - replace ((λ jm : nat * Meal, toText (prop jm.2 "idMeal"))
               <$> [(0%nat, saladMeal); (1%nat, pieMeal)])
      with ["52771"; "52893"] by (vm_compute; reflexivity).
    apply NoDup_cons. split; [|apply NoDup_singleton].
    rewrite list_elem_of_singleton. discriminate.
Defined.

(** * Signs

    No step of the normalizer and of the aggregation turns a sign bit on:
    [parseFloat] on a text without a minus sign, [/], [*] and [+]. *)
Module Signs.
Import Binary64.

Local Open Scope Z_scope.

Lemma rounded_clear (x : spec_float) : roundedWithSign false x → SFsign x = false.
Proof. now intros [->|[->|(m & e & ->)]]. Qed.

Lemma SF2Prim_clear (x : spec_float) :
  roundedWithSign false x → SFsign (Prim2SF (SF2Prim x)) = false.
Proof.
  intros [->|[->|(m & e & ->)]]; [reflexivity..|].
  unfold SF2Prim. rewrite FloatLemmas.Z_ldexp_spec, of_uint63_spec.
  pose proof (Uint63.to_Z_bounded (Uint63.of_Z (Zpos m))) as [Hlo _].
  destruct (Uint63.to_Z _) as [|p|p]; [reflexivity| |lia].
  unfold binary_normalize.
  destruct (binary_round_sign false p 0) as [->|[->|(m' & e' & ->)]];
    [reflexivity..|].
  unfold SFldexp. apply rounded_clear, binary_round_sign.
Qed.

Lemma of_ratio_clear (n d : Z) :
  0 <= n → 0 < d → SFsign (Prim2SF (of_ratio false n d)) = false.
Proof.
  intros Hn Hd. unfold of_ratio.
  pose proof (div_core_nonneg n 0 d 0 Hn Hd) as Hq.
  destruct (SFdiv_core_binary prec emax n 0 d 0) as [[mz ez] lz]. simpl in Hq.
  apply SF2Prim_clear, binary_round_aux_sign, Hq.
Qed.

Lemma of_decimal_clear (m e : Z) :
  0 <= m → SFsign (Prim2SF (of_decimal false m e)) = false.
Proof.
  intros Hm. unfold of_decimal.
  destruct (m =? 0); [reflexivity|].
  destruct (0 <=? e) eqn:He.
  - apply Z.leb_le in He. apply of_ratio_clear; [|lia].
    apply Z.mul_nonneg_nonneg; [assumption|apply Z.pow_nonneg; lia].
  - apply Z.leb_gt in He. apply of_ratio_clear; [assumption|].
    apply Z.pow_pos_nonneg; lia.
Qed.


Lemma digitsValue_nonneg (s : string) (acc : Z) :
  0 <= acc → allChars isDigit s = true → 0 <= digitsValue acc s.
Proof.
  revert acc. induction s as [|c s IH]; intros acc Hacc Hs; [assumption|].
  simpl in Hs |- *. apply andb_prop in Hs as [Hc Hs].
  apply IH; [|assumption].
  unfold isDigit in Hc. apply andb_prop in Hc as [Hlo _]. apply Z.leb_le in Hlo. lia.
Qed.

Lemma scanDecimal_nonneg (body : string) (m e : Z) :
  scanDecimal body = Some (m, e) → 0 <= m.
Proof.
  unfold scanDecimal.
  destruct (span_spec isDigit body) as (_ & Hip & _).
  destruct (span isDigit body) as [ip r1]; simpl in Hip.
  assert (Hfp : allChars isDigit
                  (fst match r1 with
                       | String "." r => span isDigit r
                       | _ => (EmptyString, r1)
                       end) = true).
  { destruct r1 as [|c r]; [reflexivity|].
    destruct c as [[] [] [] [] [] [] [] []]; try reflexivity.
    apply span_spec. }
  destruct (match r1 with String "." r => span isDigit r | _ => (EmptyString, r1) end)
    as [fp r2]; simpl in Hfp.
  destruct (isEmpty ip && isEmpty fp); [discriminate|].
  intros [= <- _]. apply digitsValue_nonneg; [lia|].
  now rewrite allChars_app, Hip, Hfp.
Qed.

(** What [parseFloat] gives for a text without a sign. *)
Lemma unsigned_clear (body : string) :
  SFsign (Prim2SF (if startsWith "Infinity" body then infinity
                   else match scanDecimal body with
                        | Some (m, e) => of_decimal false m e
                        | None => nan
                        end)) = false.
Proof.
  destruct (startsWith "Infinity" body); [reflexivity|].
  destruct (scanDecimal body) as [[m e]|] eqn:E; [|reflexivity].
  apply of_decimal_clear. now apply (scanDecimal_nonneg body m e).
Qed.

(** [parseFloat] gives a negative number or [-0] only for a text that,
    after its leading white space, starts with a minus sign. *)
Lemma parseFloat_clear (input : string) :
  (∀ r, trimStart input ≠ String "-" r) →
  SFsign (Prim2SF (parseFloat input)) = false.
Proof.
  intros Hminus. unfold parseFloat.
  destruct (trimStart input) as [|c r]; [reflexivity|].
  destruct c as [[] [] [] [] [] [] [] []];
    try (exfalso; apply (Hminus r); reflexivity);
    apply unsigned_clear.
Qed.

Lemma quantity_unsigned (s : string) :
  allChars isQuantityChar s = true → ∀ r, trimStart s ≠ String "-" r.
Proof.
  intros Hs r. destruct s as [|c s]; [discriminate|].
  simpl in Hs. apply andb_prop in Hs as [Hc _]. simpl.
  destruct (isWhiteSpace c) eqn:Hw.
  - destruct (classes_disjoint c) as (Hq & _). rewrite (Hq Hw) in Hc. discriminate.
  - intros [= -> _]. discriminate Hc.
Qed.

Lemma splitParts_allChars (p : ascii → bool) (c : ascii) (s : string) :
  allChars p s = true →
  allChars p (fst (splitParts c s)) = true
  ∧ Forall (λ part, allChars p part = true) (snd (splitParts c s)).
Proof.
  induction s as [|d s IH]; intros Hs; [now split|].
  simpl in Hs. apply andb_prop in Hs as [Hd Hs].
  destruct (IH Hs) as [H1 H2]. simpl.
  destruct (splitParts c s) as [q qs]; simpl in *.
  destruct (Ascii.eqb c d); simpl.
  - split; [reflexivity|]. now constructor.
  - split; [now rewrite Hd, H1|assumption].
Qed.

Lemma split_allChars (p : ascii → bool) (c : ascii) (s : string) (i : nat) :
  allChars p s = true →
  allChars p (default EmptyString (split c s !! i)) = true.
Proof.
  intros Hs. destruct (splitParts_allChars p c s Hs) as [H1 H2].
  unfold split. destruct (splitParts c s) as [q qs]; simpl in *.
  destruct i as [|i]; [exact H1|]. simpl.
  destruct (qs !! i) as [part|] eqn:E; [|reflexivity]. simpl.
  rewrite Forall_forall in H2. apply H2. now apply list_elem_of_lookup_2 in E.
Qed.

(** The quotient of two values that are [NaN] or have a clear sign is
    again one. *)
Lemma SFdiv_clear (a b : spec_float) :
  SFsign a = false → SFsign b = false → SFsign (SF64div a b) = false.
Proof.
  destruct a as [sa|sa| |sa ma ea], b as [sb|sb| |sb mb eb]; simpl;
    intros Ha Hb; subst; try reflexivity.
  unfold SF64div, SFdiv.
  pose proof (div_core_nonneg (Zpos ma) ea (Zpos mb) eb) as Hq.
  destruct (SFdiv_core_binary prec emax (Zpos ma) ea (Zpos mb) eb) as [[mz ez] lz].
  simpl in Hq. apply rounded_clear, binary_round_aux_sign, Hq; lia.
Qed.

Lemma SFmul_clear (a b : spec_float) :
  SFsign a = false → SFsign b = false → SFsign (SF64mul a b) = false.
Proof.
  destruct a as [sa|sa| |sa ma ea], b as [sb|sb| |sb mb eb]; simpl;
    intros Ha Hb; subst; try reflexivity.
  apply rounded_clear. apply binary_round_aux_sign. lia.
Qed.

Lemma parseQuantity_clear (quantity : string) :
  allChars isQuantityChar quantity = true →
  SFsign (Prim2SF (parseQuantity quantity)) = false.
Proof.
  intros Hq. unfold parseQuantity.
  destruct (includes "/" quantity).
  - rewrite div_spec.
    apply SFdiv_clear; apply parseFloat_clear, quantity_unsigned;
      now apply split_allChars.
  - apply parseFloat_clear. now apply quantity_unsigned.
Qed.

Lemma gramsPerUnit_clear (unit : string) :
  SFsign (Prim2SF (gramsPerUnit unit)) = false.
Proof.
  pose proof (gramsPerUnit_cases unit) as H.
  destruct (measureToGrams !! unit) as [x|] eqn:Ex.
  - rewrite H. apply elem_of_list_to_map_2 in Ex.
    repeat (apply elem_of_cons in Ex as [Ex|Ex]; [injection Ex as _ ->; reflexivity|]).
    inversion Ex.
  - destruct H as [H1 H2].
    destruct (decide (unit ∈ Object_prototype)) as [Hin|Hin].
    + now rewrite (H2 Hin).
    + now rewrite (H1 Hin).
Qed.

Lemma estimate_clear (measure : Value) :
  SFsign (Prim2SF (estimateGramsFromMeasure measure)) = false.
Proof.
  destruct measure as [| |s]; [reflexivity..|].
  unfold estimateGramsFromMeasure.
  destruct (isEmpty s); [reflexivity|].
  destruct (matchMeasure (toLowerCase (trim s))) as [[quantity unit]|] eqn:E;
    [|reflexivity].
  apply matchMeasure_sound in E.
  destruct E as (w & rest & _ & _ & Hq & _).
  rewrite mul_spec. apply SFmul_clear.
  - now apply parseQuantity_clear.
  - apply gramsPerUnit_clear.
Qed.


Lemma notNegative_spec (x : float) : notNegative x = negb (SFsign (Prim2SF x)).
Proof.
  unfold notNegative, hasClearSign. rewrite is_nan_spec, get_sign_spec.
  now destruct (Prim2SF x).
Qed.

Lemma notNegative_ltb (x : float) : notNegative x = true → (x <? 0)%float = false.
Proof.
  rewrite notNegative_spec, ltb_spec. change (Prim2SF 0) with (S754_zero false).
  destruct (Prim2SF x) as [[]|[]| |[] m e]; simpl; intros Hs;
    try discriminate Hs; reflexivity.
Qed.

Lemma SFadd_clear (a b : spec_float) :
  SFsign a = false → SFsign b = false → SFsign (SF64add a b) = false.
Proof.
  destruct a as [sa|sa| |sa ma ea], b as [sb|sb| |sb mb eb]; simpl;
    intros Ha Hb; subst; try reflexivity.
  unfold SF64add, SFadd, cond_Zopp, binary_normalize.
  set (x := Zpos (fst (shl_align ma ea (Z.min ea eb)))).
  set (y := Zpos (fst (shl_align mb eb (Z.min ea eb)))).
  assert (Hxy : 0 < x + y) by (unfold x, y; lia).
  destruct (x + y) as [|p|p]; [lia| |lia].
  apply rounded_clear, binary_round_sign.
Qed.

Lemma div_100_notNegative (g : float) :
  notNegative g = true → notNegative (g / 100) = true.
Proof.
  rewrite !notNegative_spec, div_spec, Prim2SF_100. intros Hg.
  apply negb_true_iff in Hg. apply negb_true_iff.
  now apply SFdiv_clear.
Qed.

Lemma or_else_notNegative (v : float) :
  notNegative v = true → notNegative (or_else v 0) = true.
Proof. intros Hv. unfold or_else. now destruct (truthy v). Qed.

Lemma mul_notNegative (a b : float) :
  notNegative a = true → notNegative b = true → notNegative (a * b) = true.
Proof.
  rewrite !notNegative_spec, mul_spec. intros Ha Hb.
  apply negb_true_iff in Ha, Hb. apply negb_true_iff. now apply SFmul_clear.
Qed.

Lemma add_notNegative (a b : float) :
  notNegative a = true → notNegative b = true → notNegative (a + b) = true.
Proof.
  rewrite !notNegative_spec, add_spec. intros Ha Hb.
  apply negb_true_iff in Ha, Hb. apply negb_true_iff. now apply SFadd_clear.
Qed.

Lemma estimate_notNegative (measure : Value) :
  notNegative (estimateGramsFromMeasure measure) = true.
Proof. rewrite notNegative_spec. apply negb_true_iff, estimate_clear. Qed.

End Signs.

Section NeverNegative.

Import Signs.

(** The normalizer never gives a negative number: for every measure, of any
    type and content, the estimated gram value is [NaN], [+0], a positive
    number or [+Infinity], and so is the scale derived from it. *)
Theorem estimate_never_negative (measure : Value) :
  let grams := estimateGramsFromMeasure measure in
  notNegative grams = true
  ∧ (grams <? 0)%float = false
  ∧ notNegative (grams / 100) = true
  ∧ (grams / 100 <? 0)%float = false.
Proof.
  cbv zeta. pose proof (estimate_notNegative measure) as Hg.
  pose proof (div_100_notNegative _ Hg) as Hs.
  auto using notNegative_ltb.
Qed.

Variable respond : nat -> string -> Response.

Lemma extract_notNegative (foodItem : FoodItem) :
  allValues notNegative foodItem = true →
  profileNotNegative (extractNutrients foodItem) = true.
Proof.
  destruct foodItem as [l]. unfold allValues, profileNotNegative; simpl.
  induction l as [|n l IH] using rev_ind; intros Hl.
  - reflexivity.
  - rewrite forallb_app in Hl. apply andb_prop in Hl as [Hl Hn].
    simpl in Hn. rewrite andb_true_r in Hn.
    rewrite extractNutrients_snoc.
    specialize (IH Hl).
    apply andb_prop in IH as [IH Hf]. apply andb_prop in IH as [IH Hb].
    apply andb_prop in IH as [Hc Hp].
    unfold visitNutrient.
    repeat (destruct (String.eqb _ _); [simpl; now rewrite ?Hc, ?Hp, ?Hb, ?Hf, ?Hn|]).
    now rewrite Hc, Hp, Hb, Hf.
Qed.

Lemma addScaled_notNegative (totals nutrients : NutrientProfile) (scale : float) :
  profileNotNegative totals = true →
  profileNotNegative nutrients = true →
  notNegative scale = true →
  profileNotNegative (addScaled totals nutrients scale) = true.
Proof.
  unfold profileNotNegative. intros Ht Hn Hs.
  apply andb_prop in Ht as [Ht Htf]. apply andb_prop in Ht as [Ht Htb].
  apply andb_prop in Ht as [Htc Htp].
  apply andb_prop in Hn as [Hn Hnf]. apply andb_prop in Hn as [Hn Hnb].
  apply andb_prop in Hn as [Hnc Hnp].
  unfold addScaled; simpl.
  rewrite !add_notNegative; auto using mul_notNegative, or_else_notNegative.
Qed.

Lemma loop_notNegative (meal : Meal) (slots : list nat) (st : MealTotals * list Event) :
  (∀ i query foodItem,
     firstRecord (respond i query) = Some foodItem →
     allValues notNegative foodItem = true) →
  profileNotNegative (fst st) = true →
  profileNotNegative (fst (fold_left (ingredientStep respond meal) slots st)) = true.
Proof.
  intros Hprov. revert st. induction slots as [|i slots IH]; intros st Hst; [exact Hst|].
  cbn [fold_left]. apply IH.
  rewrite ingredientStep_totals. unfold slotContribution.
  destruct (isBlank _); [assumption|].
  destruct (firstRecord _) as [foodItem|] eqn:Ef; [|assumption]. simpl.
  apply addScaled_notNegative; [assumption| |].
  - apply extract_notNegative. now apply (Hprov _ _ _ Ef).
  - apply div_100_notNegative, estimate_notNegative.
Qed.

(** When the provider reports no negative value, no total is negative,
    whatever the meal's ingredients and measures are: each of the four is
    [NaN], [+0], a positive number or [+Infinity], after every iteration
    and at the end. *)
Theorem totals_never_negative (meal : Meal)
    (Hprovider : ∀ i query foodItem,
       firstRecord (respond i query) = Some foodItem →
       allValues notNegative foodItem = true) :
  (∀ n, profileNotNegative
          (fst (fold_left (ingredientStep respond meal) (seq 1 n) (noNutrients, [])))
        = true)
  ∧ profileNotNegative (fst (mealLoop respond meal)) = true.
Proof.
  split; [intros n|unfold mealLoop]; now apply loop_notNegative.
Qed.

End NeverNegative.

(** The totals of a meal of three ingredients at a provider that knows
    apples only. *)
Lemma totals_never_negative_witness :
  profileNotNegative (fst (mealLoop applesOnly saladMeal)) = true.
Proof.
  refine (proj2 (totals_never_negative applesOnly saladMeal _)).
  intros i query foodItem. unfold applesOnly.
  destruct (String.eqb query "apple"); intros [= <-]. vm_compute. reflexivity.
Defined.
